(** * Image-to-video generator: the VideoGenerator component

    A shallow embedding of [VideoGenerator.tsx] (the [useFFmpeg] hook, the
    event handlers, the effect cleanups and the parts of the render function
    that decide what the user can do), together with the properties the
    specification states about it.

    Modelling choices, all visible in the definitions below:
    - a handler is a program over two kinds of primitive: synchronous
      operations on the component ([Op]: state setters, the [ffmpegRef] ref,
      [URL.createObjectURL], ...) and asynchronous calls into the transcoder
      library ([Call]: [load], [writeFile], [exec], ...), each of which is a
      suspension point ([await]);
    - a handler reads the React state cells from the render it was created
      in (its closure, a [Store]) and writes them through the setters;
    - the transcoder is opaque: what a call answers is chosen by the
      environment;
    - the numbers in the handlers are exact rationals. The values the page
      can produce (whole seconds 2..12, frame rates 24/30/60 and their
      halves) are exact in binary64 and print as they do here; the
      arithmetic of the fade-out start is also given on binary64 values
      ([Binary64], [fade_out_st]), where it is stated for every duration;
    - [step] renders after every event and every settled call; [batch]
      lets several settled calls share one render. *)

From Stdlib Require Import QArith Ascii Lqa Floats.SpecFloat.
From stdpp Require Import gmap strings list pretty.

Local Open Scope Z_scope.

(** ** JavaScript values *)

Module JS.

Definition number := Q.

(** [Math.max(a, b)] on two finite numbers. *)
Definition Math_max (a b : number) : number :=
  if Qle_bool a b then b else a.

(** Digits after the decimal point, by long division. *)
Fixpoint frac_digits (fuel : nat) (r d : Z) : string :=
  match fuel with
  | O => ""
  | S fuel' =>
      if r =? 0 then ""
      else pretty ((10 * r) / d) +:+ frac_digits fuel' ((10 * r) mod d) d
  end.

(** [Number.prototype.toString()] / template-literal conversion, for
    numbers of moderate magnitude: sign, integer part, and the fractional
    digits when there are any. *)
Definition toString (q : number) : string :=
  let n := Qnum q in
  let d := Z.pos (Qden q) in
  let a := Z.abs n in
  (if n <? 0 then "-" else "") +:+ pretty (a / d) +:+
  (if a mod d =? 0 then "" else "." +:+ frac_digits 17 (a mod d) d).

Definition Uint8Array := list Byte.byte.

(** [String.prototype.startsWith]. *)
Definition startsWith (s pre : string) : bool := String.prefix pre s.

(** UTF-8 encoding of one code unit below 256. *)
Definition utf8_unit (a : ascii) : Uint8Array :=
  let n := N_of_ascii a in
  if (n <? 128)%N then [byte_of_ascii a]
  else [default Byte.x00 (Byte.of_N (192 + n / 64));
        default Byte.x00 (Byte.of_N (128 + n mod 64))].

(** [new TextEncoder().encode(s)] for a string of code units below 256. *)
Fixpoint TextEncoder_encode (s : string) : Uint8Array :=
  match s with
  | EmptyString => []
  | String a s' => utf8_unit a ++ TextEncoder_encode s'
  end.

(** A thrown value. *)
Definition Exn := string.

End JS.

Import JS.

(** ** Data of the component *)

Inductive GenerationState : Type :=
| Idle
| Loading
| Processing
| Error (message : string).

Record File := { file_name : string; file_type : string; file_bytes : Uint8Array }.

Record Blob := { blob_parts : Uint8Array; blob_type : string }.

(** What an object URL was created from: a [File] (image preview) or a
    [Blob] (generated video). *)
Inductive UrlSource : Type :=
| FromFile (f : File)
| FromBlob (b : Blob).

Definition URL := nat.

Record FFmpeg := { loaded : bool }.

Record LoadConfig := { coreURL : string; wasmURL : string; workerURL : string }.

(** [readFile] answers bytes or, with a text encoding, a string. *)
Inductive FileData : Type :=
| DataBytes (b : Uint8Array)
| DataText (s : string).

Definition CORE_VERSION : string := "0.12.9".
Definition CORE_BASE_URL : string :=
  "https://unpkg.com/@ffmpeg/core@" +:+ CORE_VERSION +:+ "/dist/umd".

(** ** Primitives *)

(** Asynchronous calls into [@ffmpeg/ffmpeg] and [@ffmpeg/util]. *)
Inductive Call : Type :=
| FFmpeg_load (cfg : LoadConfig)
| fetchFile (f : File)
| FFmpeg_writeFile (name : string) (data : Uint8Array)
| FFmpeg_exec (args : list string)
| FFmpeg_readFile (name : string)
| FFmpeg_deleteFile (name : string).

Definition Resp (c : Call) : Type :=
  match c with
  | FFmpeg_load _ => bool
  | fetchFile _ => Uint8Array
  | FFmpeg_writeFile _ _ => bool
  | FFmpeg_exec _ => Z
  | FFmpeg_readFile _ => FileData
  | FFmpeg_deleteFile _ => bool
  end.

(** How a promise settles. *)
Inductive Outcome (X : Type) : Type :=
| Resolved (x : X)
| Rejected (e : Exn).
Arguments Resolved {X} x.
Arguments Rejected {X} e.

(** Synchronous operations. *)
Inductive Op : Type :=
| ref_current                              (* read ffmpegRef.current *)
| ref_new_FFmpeg                           (* ffmpegRef.current = new FFmpeg() *)
| setImageFile (v : option File)
| setImagePreview (v : option URL)
| setVideoUrl (v : option URL)
| setDuration (v : number)
| setFps (v : number)
| setState (g : GenerationState)           (* the component's status cell *)
| setFFmpegState (g : GenerationState)     (* the hook's status cell *)
| createObjectURL (src : UrlSource)
| revokeObjectURL (u : URL)
| Date_now
| console_error (e : Exn)
| preventDefault.

Definition OpRes (o : Op) : Type :=
  match o with
  | ref_current => option FFmpeg
  | createObjectURL _ => URL
  | Date_now => Z
  | _ => unit
  end.

(** What a run leaves behind, in order. *)
Inductive Event : Type :=
| EOp (o : Op)
| ECall (c : Call).

(** ** State *)

(** The React state cells; also the type of a render's closure. *)
Record Store := {
  imageFile : option File;
  imagePreview : option URL;
  videoUrl : option URL;
  duration : number;
  fps : number;
  state : GenerationState;
  ffmpegState : GenerationState
}.

(** What is shared outside React state: the ref, the browser's blob URL
    store and the clock. *)
Record World := {
  ffmpegRef : option FFmpeg;
  blobs : gmap URL UrlSource;
  next_url : URL;
  clock : nat -> Z;
  clock_reads : nat
}.

Definition Config : Type := Store * World.

Definition initial_store : Store :=
  {| imageFile := None; imagePreview := None; videoUrl := None;
     duration := 5%Q; fps := 30%Q; state := Idle; ffmpegState := Idle |}.

Definition initial_world (clk : nat -> Z) : World :=
  {| ffmpegRef := None; blobs := ∅; next_url := O; clock := clk; clock_reads := O |}.

Definition with_imageFile (v : option File) (s : Store) : Store :=
  {| imageFile := v; imagePreview := imagePreview s; videoUrl := videoUrl s;
     duration := duration s; fps := fps s; state := state s;
     ffmpegState := ffmpegState s |}.
Definition with_imagePreview (v : option URL) (s : Store) : Store :=
  {| imageFile := imageFile s; imagePreview := v; videoUrl := videoUrl s;
     duration := duration s; fps := fps s; state := state s;
     ffmpegState := ffmpegState s |}.
Definition with_videoUrl (v : option URL) (s : Store) : Store :=
  {| imageFile := imageFile s; imagePreview := imagePreview s; videoUrl := v;
     duration := duration s; fps := fps s; state := state s;
     ffmpegState := ffmpegState s |}.
Definition with_duration (v : number) (s : Store) : Store :=
  {| imageFile := imageFile s; imagePreview := imagePreview s;
     videoUrl := videoUrl s; duration := v; fps := fps s; state := state s;
     ffmpegState := ffmpegState s |}.
Definition with_fps (v : number) (s : Store) : Store :=
  {| imageFile := imageFile s; imagePreview := imagePreview s;
     videoUrl := videoUrl s; duration := duration s; fps := v; state := state s;
     ffmpegState := ffmpegState s |}.
Definition with_state (g : GenerationState) (s : Store) : Store :=
  {| imageFile := imageFile s; imagePreview := imagePreview s;
     videoUrl := videoUrl s; duration := duration s; fps := fps s; state := g;
     ffmpegState := ffmpegState s |}.
Definition with_ffmpegState (g : GenerationState) (s : Store) : Store :=
  {| imageFile := imageFile s; imagePreview := imagePreview s;
     videoUrl := videoUrl s; duration := duration s; fps := fps s;
     state := state s; ffmpegState := g |}.

Definition with_ffmpegRef (v : option FFmpeg) (w : World) : World :=
  {| ffmpegRef := v; blobs := blobs w; next_url := next_url w;
     clock := clock w; clock_reads := clock_reads w |}.
Definition with_blobs (m : gmap URL UrlSource) (n : URL) (w : World) : World :=
  {| ffmpegRef := ffmpegRef w; blobs := m; next_url := n;
     clock := clock w; clock_reads := clock_reads w |}.
Definition tick (w : World) : World :=
  {| ffmpegRef := ffmpegRef w; blobs := blobs w; next_url := next_url w;
     clock := clock w; clock_reads := S (clock_reads w) |}.

(** The effect of one synchronous operation. *)
Definition do_op (o : Op) (c : Config) : OpRes o * Config :=
  let (s, w) := c in
  match o return OpRes o * Config with
  | ref_current => (ffmpegRef w, c)
  | ref_new_FFmpeg => (tt, (s, with_ffmpegRef (Some {| loaded := false |}) w))
  | setImageFile v => (tt, (with_imageFile v s, w))
  | setImagePreview v => (tt, (with_imagePreview v s, w))
  | setVideoUrl v => (tt, (with_videoUrl v s, w))
  | setDuration v => (tt, (with_duration v s, w))
  | setFps v => (tt, (with_fps v s, w))
  | setState g => (tt, (with_state g s, w))
  | setFFmpegState g => (tt, (with_ffmpegState g s, w))
  | createObjectURL src =>
      (next_url w, (s, with_blobs (<[next_url w := src]> (blobs w)) (S (next_url w)) w))
  | revokeObjectURL u => (tt, (s, with_blobs (delete u (blobs w)) (next_url w) w))
  | Date_now => (clock w (clock_reads w), (s, tick w))
  | console_error _ => (tt, c)
  | preventDefault => (tt, c)
  end.

(** What the library does to the shared instance when a call settles:
    a resolved [load] marks the instance as loaded. *)
Definition deliver (call : Call) (r : Outcome (Resp call)) (c : Config) : Config :=
  match call, r with
  | FFmpeg_load _, Resolved _ =>
      (fst c, with_ffmpegRef (Some {| loaded := true |}) (snd c))
  | _, _ => c
  end.

(** ** Programs *)

Inductive Prog (A : Type) : Type :=
| Ret (a : A)
| Throw (e : Exn)
| Do (o : Op) (k : OpRes o -> Prog A)
| Await (c : Call) (k : Outcome (Resp c) -> Prog A).
Arguments Ret {A} a.
Arguments Throw {A} e.
Arguments Do {A} o k.
Arguments Await {A} c k.

Fixpoint bind {A B} (m : Prog A) (f : A -> Prog B) : Prog B :=
  match m with
  | Ret a => f a
  | Throw e => Throw e
  | Do o k => Do o (fun x => bind (k x) f)
  | Await c k => Await c (fun r => bind (k r) f)
  end.

(** [try { m } catch (e) { h e }]. *)
Fixpoint try_catch {A} (m : Prog A) (h : Exn -> Prog A) : Prog A :=
  match m with
  | Ret a => Ret a
  | Throw e => h e
  | Do o k => Do o (fun x => try_catch (k x) h)
  | Await c k => Await c (fun r => try_catch (k r) h)
  end.

#[global] Instance Prog_ret : MRet Prog := @Ret.
#[global] Instance Prog_bind : MBind Prog := fun A B f m => bind m f.

Definition op (o : Op) : Prog (OpRes o) := Do o Ret.

(** [await call]: a rejection is thrown at the await. *)
Definition await (c : Call) : Prog (Resp c) :=
  Await c (fun r => match r with Resolved x => Ret x | Rejected e => Throw e end).

(** ** Running a program *)

Inductive Result (A : Type) : Type :=
| Returned (a : A)
| Thrown (e : Exn).
Arguments Returned {A} a.
Arguments Thrown {A} e.

(** The environment: given what has happened so far, how a call settles. *)
Definition Env : Type := list Event -> forall c : Call, Outcome (Resp c).

(** An uninterrupted run: every call is answered before anything else
    happens to the component. *)
Fixpoint run {A} (env : Env) (p : Prog A) (c : Config) (tr : list Event)
  : Result A * Config * list Event :=
  match p with
  | Ret a => (Returned a, c, tr)
  | Throw e => (Thrown e, c, tr)
  | Do o k => let (x, c') := do_op o c in run env (k x) c' (tr ++ [EOp o])
  | Await call k =>
      let tr' := tr ++ [ECall call] in
      let r := env tr' call in
      run env (k r) (deliver call r c) tr'
  end.

(** A program runs synchronously until it suspends at a call or ends. *)
Fixpoint advance {A} (p : Prog A) (c : Config) (tr : list Event)
  : Prog A * Config * list Event :=
  match p with
  | Do o k => let (x, c') := do_op o c in advance (k x) c' (tr ++ [EOp o])
  | Await call k => (Await call k, c, tr ++ [ECall call])
  | _ => (p, c, tr)
  end.

(** ** The [useFFmpeg] hook *)

(** A reference to the FFmpeg object held in [ffmpegRef]; the object's
    fields are read through the ref. *)
Inductive Instance : Type := ffmpegRef_current.

(** Objects are truthy. *)
Definition truthy (_ : Instance) : bool := true.

Definition load_config : LoadConfig :=
  {| coreURL := CORE_BASE_URL +:+ "/ffmpeg-core.js";
     wasmURL := CORE_BASE_URL +:+ "/ffmpeg-core.wasm";
     workerURL := CORE_BASE_URL +:+ "/ffmpeg-core.worker.js" |}.

Definition load_failed : string :=
  "Failed to load FFmpeg. Please refresh and try again.".

Definition load : Prog Instance :=
  cur ← op ref_current;
  (if cur is None then op ref_new_FFmpeg else mret tt);;
  cur ← op ref_current;
  if default false (loaded <$> cur) then mret ffmpegRef_current
  else
    op (setFFmpegState Loading);;
    let ffmpegInstance := ffmpegRef_current in
    try_catch
      (await (FFmpeg_load load_config);;
       op (setFFmpegState Idle);;
       mret ffmpegInstance)
      (fun error =>
         op (console_error error);;
         op (setFFmpegState (Error load_failed));;
         Throw error).

(** ** The component *)

(** The mount effect. *)
Definition prepare : Prog unit :=
  try_catch (load;; mret tt) (fun _ => mret tt).

(** The cleanups of the two URL effects, as closed over a render. *)
Definition cleanup_imagePreview (r : Store) : Prog unit :=
  if imagePreview r is Some u then op (revokeObjectURL u) else mret tt.

Definition cleanup_videoUrl (r : Store) : Prog unit :=
  if videoUrl r is Some u then op (revokeObjectURL u) else mret tt.

Definition is_error (g : GenerationState) : bool :=
  match g with Error _ => true | _ => false end.

Definition ready (c : Config) : bool :=
  negb (is_error (ffmpegState (fst c)))
  && default false (loaded <$> ffmpegRef (snd c)).

Definition unsupported_file : string :=
  "Unsupported file. Please select an image.".

Definition handleImageSelection (r : Store) (file : option File) : Prog unit :=
  match file with
  | None =>
      op (setImageFile None);;
      op (setImagePreview None)
  | Some file =>
      if negb (startsWith (file_type file) "image/") then
        op (setState (Error unsupported_file))
      else
        (if imagePreview r is Some u then op (revokeObjectURL u) else mret tt);;
        previewUrl ← op (createObjectURL (FromFile file));
        op (setImageFile (Some file));;
        op (setImagePreview (Some previewUrl));;
        op (setState Idle)
  end.

(** [files?.[0] ?? null] *)
Definition first_file (files : option (list File)) : option File :=
  files ≫= head.

Definition handleFileChange (r : Store) (files : option (list File)) : Prog unit :=
  handleImageSelection r (first_file files).

Definition handleDrop (r : Store) (files : option (list File)) : Prog unit :=
  op preventDefault;;
  handleImageSelection r (first_file files).

Definition resetVideo (r : Store) : Prog unit :=
  (if videoUrl r is Some u then op (revokeObjectURL u) else mret tt);;
  op (setVideoUrl None).

Definition choose_image : string :=
  "Please choose an image before generating.".

Definition generation_failed : string :=
  "Something went wrong while generating the video. Please try again.".

Definition generateVideo (r : Store) : Prog unit :=
  match imageFile r with
  | None => op (setState (Error choose_image))
  | Some imageFile =>
      try_catch
        (op (setState Processing);;
         resetVideo r;;
         ffmpegInstance ← load;
         (if negb (truthy ffmpegInstance)
          then Throw "FFmpeg failed to initialize." else mret tt);;
         t_in ← op Date_now;
         let inputName := "input" +:+ pretty t_in +:+ ".png" in
         t_out ← op Date_now;
         let outputName := "output" +:+ pretty t_out +:+ ".mp4" in
         data ← await (fetchFile imageFile);
         await (FFmpeg_writeFile inputName data);;
         await (FFmpeg_exec
                  [ "-loop"; "1";
                    "-i"; inputName;
                    "-c:v"; "libx264";
                    "-t"; toString (duration r);
                    "-vf";
                    "fps=" +:+ toString (fps r)
                      +:+ ",fade=t=in:st=0:d=0.5,fade=t=out:st="
                      +:+ toString (Math_max (duration r - (1 # 2))%Q 0%Q)
                      +:+ ":d=0.5,format=yuv420p";
                    "-pix_fmt"; "yuv420p";
                    "-movflags"; "+faststart";
                    outputName ]);;
         fileData ← await (FFmpeg_readFile outputName);
         await (FFmpeg_deleteFile inputName);;
         await (FFmpeg_deleteFile outputName);;
         let binaryData :=
           match fileData with
           | DataBytes b => b
           | DataText s => TextEncoder_encode s
           end in
         let blob := {| blob_parts := binaryData; blob_type := "video/mp4" |} in
         url ← op (createObjectURL (FromBlob blob));
         op (setVideoUrl (Some url));;
         op (setState Idle))
        (fun error =>
           op (console_error error);;
           op (setState (Error generation_failed)))
  end.

(** The inline handlers of the two inputs and of the "Clear video" button. *)
Definition onChange_duration (v : number) : Prog unit := op (setDuration v).
Definition onChange_fps (v : number) : Prog unit := op (setFps v).
Definition onClick_clear (r : Store) : Prog unit :=
  resetVideo r;; op (setState Idle).

(** ** What is rendered *)

Definition isProcessing (s : Store) : bool :=
  match state s with Processing => true | _ => false end.

Definition statusMessage (c : Config) : string :=
  match state (fst c) with
  | Error message => message
  | Processing => "Generating video with FFmpeg…"
  | _ =>
      match ffmpegState (fst c) with
      | Loading => "Loading FFmpeg core (runs locally in your browser)…"
      | _ => if negb (ready c) then "Initializing FFmpeg…" else ""
      end
  end.

(** The [disabled] attribute shared by the slider, the select and the
    "Generate MP4" button. *)
Definition controls_disabled (c : Config) : bool :=
  negb (ready c) || isProcessing (fst c).

Inductive Preview : Type :=
| video_src (src : URL)
| img_src (src : URL)
| placeholder.

Definition preview (s : Store) : Preview :=
  match videoUrl s with
  | Some u => video_src u
  | None =>
      match imagePreview s with
      | Some p => img_src p
      | None => placeholder
      end
  end.

(** The download link: its [href] and [download] attributes, when shown. *)
Definition download_link (s : Store) : option (URL * string) :=
  (fun u => (u, "image-video.mp4")) <$> videoUrl s.

(** ** The page as a transition system

    Between two renders one thing happens: the user does something the
    rendered page allows, or one pending call settles and the handler that
    awaited it continues up to its next call. Then React commits, and the
    cleanup of every URL effect whose dependency changed runs with the
    values of the previous render. *)

Inductive UIEvent : Type :=
| ChangeFile (files : option (list File))  (* the file input's onChange *)
| DropFiles (files : option (list File))   (* onDrop on the label *)
| ChangeDuration (v : Z)                   (* the range input, min 2, max 12 *)
| ChangeFps (v : Z)                        (* the select, options 24/30/60 *)
| ClickGenerate
| ClickClear.

Inductive Label : Type :=
| UI (ev : UIEvent)
| Settle (i : nat) (answer : forall c : Call, Outcome (Resp c)).

Record Sys := {
  config : Config;
  trace : list Event;
  tasks : list (Prog unit)   (* handlers suspended at a call *)
}.

(** What the rendered page lets the user do. *)
Definition enabled (ev : UIEvent) (c : Config) : bool :=
  match ev with
  | ChangeFile _ | DropFiles _ => true
  | ChangeDuration v => negb (controls_disabled c) && (2 <=? v) && (v <=? 12)
  | ChangeFps v => negb (controls_disabled c) && bool_decide (v ∈ [24; 30; 60])
  | ClickGenerate => negb (controls_disabled c)
  | ClickClear => bool_decide (is_Some (videoUrl (fst c)))
  end.

(** The handler an event invokes, closed over the render [r]. *)
Definition handler (ev : UIEvent) (r : Store) : Prog unit :=
  match ev with
  | ChangeFile files => handleFileChange r files
  | DropFiles files => handleDrop r files
  | ChangeDuration v => onChange_duration (inject_Z v)
  | ChangeFps v => onChange_fps (inject_Z v)
  | ClickGenerate => generateVideo r
  | ClickClear => onClick_clear r
  end.

Definition suspended {A} (p : Prog A) : bool :=
  match p with Await _ _ => true | _ => false end.

(** A suspended handler continues when its call settles: the library does
    its part, and the handler runs on to its next call or to its end. *)
Definition resume (p : Prog unit) (answer : forall c : Call, Outcome (Resp c))
    (c : Config) (tr : list Event) : option (Prog unit * Config * list Event) :=
  match p with
  | Await call k =>
      let r := answer call in
      Some (advance (k r) (deliver call r c) tr)
  | _ => None
  end.

(** One step up to, but not including, the commit. *)
Definition handle (l : Label) (s : Sys) : option Sys :=
  match l with
  | UI ev =>
      if enabled ev (config s) then
        let '(p, c, tr) := advance (handler ev (fst (config s))) (config s) (trace s) in
        Some {| config := c; trace := tr;
                tasks := if suspended p then tasks s ++ [p] else tasks s |}
      else None
  | Settle i answer =>
      task ← tasks s !! i;
      '(p, c, tr) ← resume task answer (config s) (trace s);
      Some {| config := c; trace := tr;
              tasks := if suspended p then <[i := p]> (tasks s)
                       else delete i (tasks s) |}
  end.

(** The commit after a step that started from render [prev]. *)
Definition commit (prev : Store) (s : Sys) : Sys :=
  let cur := fst (config s) in
  let cleanups : Prog unit :=
    (if decide (imagePreview prev = imagePreview cur)
     then mret tt else cleanup_imagePreview prev);;
    (if decide (videoUrl prev = videoUrl cur)
     then mret tt else cleanup_videoUrl prev) in
  let '(_, c, tr) := advance cleanups (config s) (trace s) in
  {| config := c; trace := tr; tasks := tasks s |}.

Definition step (l : Label) (s : Sys) : option Sys :=
  commit (fst (config s)) <$> handle l s.

Fixpoint steps (ls : list Label) (s : Sys) : option Sys :=
  match ls with
  | [] => Some s
  | l :: ls' => step l s ≫= steps ls'
  end.

(** Mounting the component runs the mount effect. *)
Definition mount (clk : nat -> Z) : Sys :=
  let c0 := (initial_store, initial_world clk) in
  let '(p, c, tr) := advance prepare c0 [] in
  commit initial_store
    {| config := c; trace := tr; tasks := if suspended p then [p] else [] |}.

(** ** Reading a trace *)

(** The calls made, in order. *)
Definition calls (tr : list Event) : list Call :=
  omap (fun e => match e with ECall c => Some c | EOp _ => None end) tr.

Definition exec_args (c : Call) : option (list string) :=
  match c with FFmpeg_exec args => Some args | _ => None end.

(** Events that move a file or a blob: the calls that read the picked file,
    write, transcode, read back or delete a file of the transcoder, and the
    creation of an object URL. *)
Definition file_io (e : Event) : bool :=
  match e with
  | ECall (FFmpeg_load _) => false
  | ECall _ => true
  | EOp (createObjectURL _) => true
  | EOp _ => false
  end.

(** The bytes that go into the blob. *)
Definition blob_content (fileData : FileData) : Uint8Array :=
  match fileData with
  | DataBytes b => b
  | DataText s => TextEncoder_encode s
  end.

Definition creates_instance (e : Event) : bool :=
  match e with EOp ref_new_FFmpeg => true | _ => false end.

Definition sets_error (e : Event) : bool :=
  match e with
  | EOp (setState (Error _)) | EOp (setFFmpegState (Error _)) => true
  | _ => false
  end.

(** ** Predicates for the invariants *)

(** Every event the program can ever emit satisfies [P]. *)
Fixpoint emits_only {A} (P : Event -> Prop) (p : Prog A) : Prop :=
  match p with
  | Ret _ | Throw _ => True
  | Do o k => P (EOp o) /\ forall x, emits_only P (k x)
  | Await c k => P (ECall c) /\ forall r, emits_only P (k r)
  end.

(** The values the two inputs can hold: a whole number of seconds within
    the slider's range, and one of the three offered frame rates. *)
Definition slider_values (s : Store) : Prop :=
  exists d f : Z,
    duration s = inject_Z d /\ 2 <= d <= 12
    /\ fps s = inject_Z f /\ f ∈ [24; 30; 60].

(** The argument list of the source, for a duration and a frame rate that
    the inputs can hold. *)
Definition fixed_pipeline (args : list string) : Prop :=
  exists (inputName outputName : string) (d f : Z),
    2 <= d <= 12 /\ f ∈ [24; 30; 60]
    /\ args =
         [ "-loop"; "1"; "-i"; inputName; "-c:v"; "libx264";
           "-t"; toString (inject_Z d); "-vf";
           "fps=" +:+ toString (inject_Z f)
             +:+ ",fade=t=in:st=0:d=0.5,fade=t=out:st="
             +:+ toString (inject_Z d - (1 # 2))%Q
             +:+ ":d=0.5,format=yuv420p";
           "-pix_fmt"; "yuv420p"; "-movflags"; "+faststart"; outputName ].

(** What the page may emit: slider values within range, and [exec] with
    the fixed pipeline. *)
Definition allowed (e : Event) : Prop :=
  match e with
  | EOp (setDuration v) => exists d : Z, v = inject_Z d /\ 2 <= d <= 12
  | EOp (setFps v) => exists f : Z, v = inject_Z f /\ f ∈ [24; 30; 60]
  | ECall (FFmpeg_exec args) => fixed_pipeline args
  | _ => True
  end.

(** What holds of the page at every render. *)
Definition page_inv (s : Sys) : Prop :=
  slider_values (fst (config s))
  /\ Forall allowed (trace s)
  /\ Forall (emits_only allowed) (tasks s).

(** A live URL is installed when the cell of its slot holds it. *)
Definition installed (s : Store) (u : URL) (src : UrlSource) : Prop :=
  match src with
  | FromFile _ => imagePreview s = Some u
  | FromBlob _ => videoUrl s = Some u
  end.

(** Every live URL is installed. *)
Definition urls_installed (c : Config) : Prop :=
  forall (u : URL) (src : UrlSource),
    blobs (snd c) !! u = Some src -> installed (fst c) u src.

(** Before the commit a live URL may also be one that the step replaced. *)
Definition stale_only (prev : Store) (c : Config) : Prop :=
  forall (u : URL) (src : UrlSource),
    blobs (snd c) !! u = Some src ->
    installed (fst c) u src
    \/ (imagePreview prev = Some u /\ imagePreview (fst c) <> Some u)
    \/ (videoUrl prev = Some u /\ videoUrl (fst c) <> Some u).

(** What a resumed handler does to the URLs: nothing, or it creates one for
    a blob and installs it as the video URL. *)
Definition url_effect (c c' : Config) : Prop :=
  imagePreview (fst c') = imagePreview (fst c)
  /\ ((blobs (snd c') = blobs (snd c) /\ videoUrl (fst c') = videoUrl (fst c))
      \/ exists (b : Blob) (u : URL),
           blobs (snd c') = <[u := FromBlob b]> (blobs (snd c))
           /\ videoUrl (fst c') = Some u).

(** A suspended handler is harmless when, however its call settles, it has
    that effect and what remains of it is harmless too. *)
Inductive pending_ok : Prog unit -> Prop :=
| pending_intro (p : Prog unit) :
    (forall answer c tr p' c' tr',
        resume p answer c tr = Some (p', c', tr') -> url_effect c c') ->
    (forall answer c tr p' c' tr',
        resume p answer c tr = Some (p', c', tr') -> pending_ok p') ->
    pending_ok p.

(** What holds of the URLs at every render. *)
Definition urls_inv (s : Sys) : Prop :=
  urls_installed (config s) /\ Forall pending_ok (tasks s).

(** ** Example inputs *)

Module Examples.

Definition png : File :=
  {| file_name := "cat.png"; file_type := "image/png";
     file_bytes := [Byte.x89; Byte.x50; Byte.x4e; Byte.x47] |}.

Definition jpg : File :=
  {| file_name := "dog.jpg"; file_type := "image/jpeg";
     file_bytes := [Byte.xff; Byte.xd8] |}.

Definition pdf : File :=
  {| file_name := "notes.pdf"; file_type := "application/pdf";
     file_bytes := [Byte.x25; Byte.x50] |}.

(** Successive readings of the clock, in milliseconds. *)
Definition clk (n : nat) : Z :=
  nth n [ 1700000000000; 1700000000001; 1700000004210; 1700000004210;
          1700000009876; 1700000009877 ] 1700000010000.

(** A transcoder for which every call succeeds; [readFile] answers bytes. *)
Definition all_fine : forall c : Call, Outcome (Resp c) := fun c =>
  match c with
  | FFmpeg_load _ => Resolved true
  | fetchFile f => Resolved (file_bytes f)
  | FFmpeg_writeFile _ _ => Resolved true
  | FFmpeg_exec _ => Resolved 0
  | FFmpeg_readFile _ => Resolved (DataBytes [Byte.x00; Byte.x01])
  | FFmpeg_deleteFile _ => Resolved true
  end.

(** An environment that answers the same way whatever happened before. *)
Definition always (answer : forall c : Call, Outcome (Resp c)) : Env :=
  fun _ => answer.

(** The same, except that [readFile] answers text. *)
Definition text_output : forall c : Call, Outcome (Resp c) := fun c =>
  match c with
  | FFmpeg_readFile _ => Resolved (DataText "mp4")
  | FFmpeg_load cfg => all_fine (FFmpeg_load cfg)
  | fetchFile f => all_fine (fetchFile f)
  | FFmpeg_writeFile n d => all_fine (FFmpeg_writeFile n d)
  | FFmpeg_exec a => all_fine (FFmpeg_exec a)
  | FFmpeg_deleteFile n => all_fine (FFmpeg_deleteFile n)
  end.

(** The module cannot be fetched. *)
Definition offline : forall c : Call, Outcome (Resp c) := fun c =>
  match c with
  | FFmpeg_load _ => Rejected "NetworkError"
  | fetchFile f => all_fine (fetchFile f)
  | FFmpeg_writeFile n d => all_fine (FFmpeg_writeFile n d)
  | FFmpeg_exec a => all_fine (FFmpeg_exec a)
  | FFmpeg_readFile n => all_fine (FFmpeg_readFile n)
  | FFmpeg_deleteFile n => all_fine (FFmpeg_deleteFile n)
  end.

(** The encoder fails. *)
Definition exec_fails : forall c : Call, Outcome (Resp c) := fun c =>
  match c with
  | FFmpeg_exec _ => Rejected "Aborted"
  | FFmpeg_load cfg => all_fine (FFmpeg_load cfg)
  | fetchFile f => all_fine (fetchFile f)
  | FFmpeg_writeFile n d => all_fine (FFmpeg_writeFile n d)
  | FFmpeg_readFile n => all_fine (FFmpeg_readFile n)
  | FFmpeg_deleteFile n => all_fine (FFmpeg_deleteFile n)
  end.

Definition with_png : Store := with_imageFile (Some png) initial_store.

Definition loaded_world : World :=
  with_ffmpegRef (Some {| loaded := true |}) (initial_world clk).

End Examples.

(** Two generations in flight at once. The module loads; an image is
    dropped; "Generate MP4" is clicked; while that run waits for the
    transcoder a second image is dropped, which sets the status back to
    [Idle] and so enables the button again; it is clicked again; then the
    calls of the first run settle, and those of the second up to its last. *)
Definition overlapping_generations : list Label :=
  [ Settle 0 Examples.all_fine;
    UI (DropFiles (Some [Examples.png]));
    UI ClickGenerate;
    UI (DropFiles (Some [Examples.jpg]));
    UI ClickGenerate ]
  ++ replicate 6 (Settle 0 Examples.all_fine)
  ++ replicate 5 (Settle 0 Examples.all_fine).

(** ** The life cycle of the module *)

Inductive Phase : Type := ModuleLoading | ModuleFailed | ModuleReady.

(** Events that leave the module alone: no instance is created and the
    library's load is not called. *)
Definition no_load (e : Event) : Prop :=
  match e with
  | EOp ref_new_FFmpeg | ECall (FFmpeg_load _) => False
  | _ => True
  end.

(** Events that also leave the hook's status alone. *)
Definition module_quiet (e : Event) : Prop :=
  match e with
  | EOp (setFFmpegState _) => False
  | _ => no_load e
  end.

(** Events of a file selection or of an effect cleanup: no call, the video
    URL is not set, the module is left alone. *)
Definition selection_only (e : Event) : Prop :=
  match e with
  | ECall _ | EOp (setVideoUrl _) => False
  | _ => module_quiet e
  end.

(** The module's part of the state: what the ref holds and the hook's
    status. *)
Definition module_is (ref : option FFmpeg) (g : GenerationState) (c : Config)
  : Prop :=
  ffmpegRef (snd c) = ref /\ ffmpegState (fst c) = g.

(** The three phases of a mounted page. While the module loads and after
    the load has failed there is no video and nothing but file selections
    has happened since the mount; once the module is loaded, suspended
    handlers leave the module alone. *)
Definition in_phase (clk : nat -> Z) (ph : Phase) (s : Sys) : Prop :=
  match ph with
  | ModuleLoading =>
      module_is (Some {| loaded := false |}) Loading (config s)
      /\ videoUrl (fst (config s)) = None
      /\ tasks s = tasks (mount clk)
      /\ exists new, trace s = trace (mount clk) ++ new
                     /\ Forall selection_only new
  | ModuleFailed =>
      module_is (Some {| loaded := false |})
        (Error "Failed to load FFmpeg. Please refresh and try again.") (config s)
      /\ videoUrl (fst (config s)) = None
      /\ tasks s = []
      /\ exists new, trace s = trace (mount clk) ++ new
                     /\ calls new = [] /\ Forall no_load new
  | ModuleReady =>
      module_is (Some {| loaded := true |}) Idle (config s)
      /\ Forall (emits_only module_quiet) (tasks s)
      /\ exists new, trace s = trace (mount clk) ++ new /\ Forall no_load new
  end.

(** The values the component's status takes. *)
Definition page_status (g : GenerationState) : Prop :=
  g = Idle \/ g = Processing
  \/ g = Error "Please choose an image before generating."
  \/ g = Error "Unsupported file. Please select an image."
  \/ g = Error "Something went wrong while generating the video. Please try again.".

Definition status_events (e : Event) : Prop :=
  match e with
  | EOp (setState g) => page_status g
  | _ => True
  end.

(** The same environment, except for the values that a resolved [load],
    [writeFile], [exec] or [deleteFile] returns. *)
Definition with_return_values (ok : bool) (code : Z) (env : Env) : Env :=
  fun hist c =>
    match c return Outcome (Resp c) with
    | FFmpeg_load cfg =>
        match env hist (FFmpeg_load cfg) with
        | Resolved _ => Resolved ok
        | Rejected e => Rejected e
        end
    | fetchFile f => env hist (fetchFile f)
    | FFmpeg_writeFile name data =>
        match env hist (FFmpeg_writeFile name data) with
        | Resolved _ => Resolved ok
        | Rejected e => Rejected e
        end
    | FFmpeg_exec args =>
        match env hist (FFmpeg_exec args) with
        | Resolved _ => Resolved code
        | Rejected e => Rejected e
        end
    | FFmpeg_readFile name => env hist (FFmpeg_readFile name)
    | FFmpeg_deleteFile name =>
        match env hist (FFmpeg_deleteFile name) with
        | Resolved _ => Resolved ok
        | Rejected e => Rejected e
        end
    end.

Definition is_load (c : Call) : bool :=
  match c with FFmpeg_load _ => true | _ => false end.

(** ** What the page shows is live *)

(** The URLs a render shows are live: the image and its preview are set
    together, the preview URL is one of the selected file and the video URL
    one of an MP4 blob; and every live URL was handed out earlier. *)
Definition shown_live (c : Config) : Prop :=
  match imagePreview (fst c) with
  | Some u => exists f : File,
      imageFile (fst c) = Some f /\ blobs (snd c) !! u = Some (FromFile f)
  | None => imageFile (fst c) = None
  end
  /\ (forall u : URL, videoUrl (fst c) = Some u ->
        exists b : Blob,
          blobs (snd c) !! u = Some (FromBlob b) /\ blob_type b = "video/mp4")
  /\ (forall u : URL, is_Some (blobs (snd c) !! u) -> (u < next_url (snd c))%nat).

(** Before the commit: the cleanups that are due revoke nothing that the
    new render shows. *)
Definition cleanups_spare (prev : Store) (c : Config) : Prop :=
  shown_live c
  /\ (forall u : URL, imagePreview prev = Some u -> videoUrl (fst c) <> Some u)
  /\ (forall u : URL, videoUrl prev = Some u -> imagePreview (fst c) <> Some u).

(** What a resumed generation does to the URLs: nothing, or it creates the
    next URL for an MP4 blob and installs it as the video URL. *)
Definition video_effect (c c' : Config) : Prop :=
  imageFile (fst c') = imageFile (fst c)
  /\ imagePreview (fst c') = imagePreview (fst c)
  /\ ((blobs (snd c') = blobs (snd c) /\ next_url (snd c') = next_url (snd c)
       /\ videoUrl (fst c') = videoUrl (fst c))
      \/ exists b : Blob,
           blob_type b = "video/mp4"
           /\ blobs (snd c') = <[next_url (snd c) := FromBlob b]> (blobs (snd c))
           /\ next_url (snd c') = S (next_url (snd c))
           /\ videoUrl (fst c') = Some (next_url (snd c))).

(** A suspended handler is harmless for what is shown when, however its
    call settles, it has that effect and what remains of it is harmless
    too. *)
Inductive pending_video : Prog unit -> Prop :=
| pending_video_intro (p : Prog unit) :
    (forall answer c tr p' c' tr',
        resume p answer c tr = Some (p', c', tr') -> video_effect c c') ->
    (forall answer c tr p' c' tr',
        resume p answer c tr = Some (p', c', tr') -> pending_video p') ->
    pending_video p.

(** What holds of the shown URLs at every render. *)
Definition shown_inv (s : Sys) : Prop :=
  shown_live (config s) /\ Forall pending_video (tasks s).

(** ** Binary64

    JavaScript numbers are IEEE 754 binary64 values. The arithmetic of the
    fade-out start is also modelled on them, with the Standard Library's
    executable specification of the format: round to nearest, ties to
    even, with [NaN], the infinities and the two zeros. *)

Module Binary64.

Definition prec : Z := 53.
Definition emax : Z := 1024.

Definition float64 : Type := spec_float.

Definition valid (x : float64) : bool := valid_binary prec emax x.

Definition NaN : float64 := S754_nan.

Definition zero : float64 := S754_zero false.

(** [0.5] is [2^52 * 2^-53]. *)
Definition half : float64 := S754_finite false 4503599627370496 (-53).


Definition sub (x y : float64) : float64 := SFsub prec emax x y.



(** [Math.max(a, b)]: [NaN] when either is, and [+0] counts as larger than
    [-0]. *)
Definition Math_max (a b : float64) : float64 :=
  match SFcompare a b with
  | None => NaN
  | Some Gt => a
  | Some Lt => b
  | Some Eq => match a with S754_zero true => b | _ => a end
  end.

(** The rational that a finite value stands for. *)
Definition to_Q (x : float64) : option Q :=
  match x with
  | S754_zero _ => Some 0%Q
  | S754_finite s m e =>
      Some ((if s then Qopp else id) (inject_Z (Zpos m) * 2 ^ e)%Q)
  | _ => None
  end.

End Binary64.

(** [Math.max(duration - 0.5, 0)], as [generateVideo] computes it before
    printing it into the filter string: in binary64. *)
Definition fade_out_st (duration : Binary64.float64) : Binary64.float64 :=
  Binary64.Math_max (Binary64.sub duration Binary64.half) Binary64.zero.


(** ** Failures *)

(** What [load] does before it calls the library, when the instance in the
    ref is not loaded: it creates the instance if there is none and sets
    the hook's status to loading. *)
Definition load_begins (c : Config) : list Event :=
  EOp ref_current
    :: (if ffmpegRef (snd c) is None then [EOp ref_new_FFmpeg] else [])
    ++ [EOp ref_current; EOp (setFFmpegState Loading)].

(** A failure in a run with trace [tr]: the call made after [pre] was
    rejected with [e], and [post] is what the run did afterwards. *)
Definition failure (env : Env) (tr pre : list Event) (call : Call)
    (post : list Event) (e : Exn) : Prop :=
  tr = pre ++ ECall call :: post
  /\ env (pre ++ [ECall call]) call = Rejected e.

(** ** Several settlements before one render

    React renders after an event handler returns. The state updates of
    promise continuations are batched: when two calls settle before React
    renders, both continuations run first, their updates share one commit,
    and each effect cleanup runs once, closed over the render before the
    batch. [step] is the batch of one. *)

Fixpoint handles (ls : list Label) (s : Sys) : option Sys :=
  match ls with
  | [] => Some s
  | l :: ls' => handle l s ≫= handles ls'
  end.

Definition batch (ls : list Label) (s : Sys) : option Sys :=
  commit (fst (config s)) <$> handles ls s.

(** The page from one render to the next, any number of times. *)
Fixpoint batches (bs : list (list Label)) (s : Sys) : option Sys :=
  match bs with
  | [] => Some s
  | ls :: bs' => batch ls s ≫= batches bs'
  end.

(** Two generations in flight at once, as in [overlapping_generations], both
    brought to their last call. *)
Definition both_at_last_call : list Label :=
  [ Settle 0 Examples.all_fine;
    UI (DropFiles (Some [Examples.png]));
    UI ClickGenerate;
    UI (DropFiles (Some [Examples.jpg]));
    UI ClickGenerate ]
  ++ replicate 5 (Settle 0 Examples.all_fine)
  ++ replicate 5 (Settle 1 Examples.all_fine).

(** A live URL that the page neither shows nor holds. *)
Definition leaked (u : URL) (src : UrlSource) (c : Config) : Prop :=
  blobs (snd c) !! u = Some src
  /\ imagePreview (fst c) <> Some u
  /\ videoUrl (fst c) <> Some u
  /\ (u < next_url (snd c))%nat.

Definition leaked_inv (u : URL) (src : UrlSource) (s : Sys) : Prop :=
  leaked u src (config s) /\ Forall pending_video (tasks s).

(** * Properties *)

(** ** Tactics for symbolic runs *)

(** Case analysis on how the environment settles the next call. *)
Ltac ask_env :=
  match goal with
  | env : Env |- context [ ?e ?h ?c ] =>
      constr_eq e env; let E := fresh "Hans" in destruct (env h c) eqn:E
  end.

(** Decide membership of an event in an explicit trace. *)
Ltac find_event H :=
  repeat (apply elem_of_cons in H as [H|H]; [try discriminate H|]);
  try (apply elem_of_nil in H; contradiction).

(** All uninterrupted runs of [generateVideo]: with or without an image,
    with or without a video to reset, whatever the ref holds and however the
    calls settle. *)
Ltac generateVideo_runs r c :=
  let s := fresh "s" in
  let ref := fresh "ref" in
  destruct c as [s [ref ? ? ? ?]];
  unfold generateVideo, resetVideo, load, await, op;
  destruct (imageFile r) eqn:?; destruct (videoUrl r) eqn:?;
  destruct ref as [[[|]]|]; cbn;
  repeat (ask_env; cbn).

(** ** [Math.max] *)

Lemma Math_max_nonneg (a : number) : (0 <= Math_max a 0)%Q.
Proof.
  unfold Math_max. destruct (Qle_bool a 0) eqn:E.
  - apply Qle_refl.
  - apply Qlt_le_weak, Qnot_le_lt. rewrite <- Qle_bool_iff, E. discriminate.
Qed.


(** Membership in an explicit list. *)
Ltac in_list :=
  vm_compute;
  repeat first [ apply list_elem_of_here | apply list_elem_of_further ].

(** ** The model on the default settings *)

Example toString_whole : toString 5%Q = "5".
Proof. reflexivity. Qed.

Example toString_half : toString (Math_max (5 - (1 # 2))%Q 0%Q) = "4.5".
Proof. reflexivity. Qed.

Example exec_of_default_settings :
  filter (fun c => bool_decide (is_Some (exec_args c)))
    (calls (run (Examples.always Examples.all_fine) (generateVideo Examples.with_png)
              (Examples.with_png, Examples.loaded_world) []).2)
  = [FFmpeg_exec
       ["-loop"; "1"; "-i"; "input1700000000000.png"; "-c:v"; "libx264";
        "-t"; "5"; "-vf";
        "fps=30,fade=t=in:st=0:d=0.5,fade=t=out:st=4.5:d=0.5,format=yuv420p";
        "-pix_fmt"; "yuv420p"; "-movflags"; "+faststart";
        "output1700000000001.mp4"]].
Proof. reflexivity. Qed.

(** When the module cannot be fetched, the hook's status holds its error
    message; the page itself keeps showing the initialising text. *)
Example load_rejected_at_mount :
  (fun s => (ffmpegState (fst (config s)), statusMessage (config s),
             enabled ClickGenerate (config s)))
    <$> steps [Settle 0 Examples.offline] (mount Examples.clk)
  = Some (Error "Failed to load FFmpeg. Please refresh and try again.",
          "Initializing FFmpeg…", false).
Proof. reflexivity. Qed.

(** ** Input validation *)

(** C8. Without a selected image, [generateVideo] only sets the status to the
    error "Please choose an image before generating.": it returns before
    [resetVideo] and before any call, and the video URL, the image preview,
    the duration, the frame rate and everything outside React state stay as
    they were. *)
Theorem generateVideo_without_image (env : Env) (r : Store) (c : Config) :
  imageFile r = None ->
  exists c',
    run env (generateVideo r) c [] =
      (Returned tt, c',
       [EOp (setState (Error "Please choose an image before generating."))])
    /\ state (fst c') = Error "Please choose an image before generating."
    /\ videoUrl (fst c') = videoUrl (fst c)
    /\ imagePreview (fst c') = imagePreview (fst c)
    /\ duration (fst c') = duration (fst c)
    /\ fps (fst c') = fps (fst c)
    /\ snd c' = snd c.
Proof.
  intros Himg. destruct c as [s w]. unfold generateVideo. rewrite Himg.
  eexists. split; [reflexivity|]. cbn. repeat split.
Qed.

Lemma generateVideo_without_image_witness :
  exists c',
    run (Examples.always Examples.all_fine) (generateVideo initial_store)
        (initial_store, Examples.loaded_world) [] =
      (Returned tt, c',
       [EOp (setState (Error "Please choose an image before generating."))])
    /\ state (fst c') = Error "Please choose an image before generating."
    /\ videoUrl (fst c') = None
    /\ imagePreview (fst c') = None
    /\ duration (fst c') = 5%Q
    /\ fps (fst c') = 30%Q
    /\ snd c' = Examples.loaded_world.
Proof.
  apply (generateVideo_without_image (Examples.always Examples.all_fine) initial_store
           (initial_store, Examples.loaded_world)).
  reflexivity.
Defined.

(** C9. A file whose MIME type does not start with "image/" is refused,
    whether it comes from the file input or from a drop: the status becomes
    the error "Unsupported file. Please select an image." and the selected
    image, its preview URL and the blob URL store are untouched. Passing
    null clears the image and the preview and leaves the status alone. *)
Theorem handleImageSelection_validation
    (env : Env) (r : Store) (c : Config) (f : File) (rest : list File) :
  startsWith (file_type f) "image/" = false ->
  let msg := "Unsupported file. Please select an image." in
  let refused (p : Prog unit) (before : list Event) :=
    exists c',
      run env p c [] = (Returned tt, c', before ++ [EOp (setState (Error msg))])
      /\ state (fst c') = Error msg
      /\ imageFile (fst c') = imageFile (fst c)
      /\ imagePreview (fst c') = imagePreview (fst c)
      /\ snd c' = snd c in
  refused (handleImageSelection r (Some f)) []
  /\ refused (handleFileChange r (Some (f :: rest))) []
  /\ refused (handleDrop r (Some (f :: rest))) [EOp preventDefault]
  /\ exists c',
       run env (handleImageSelection r None) c [] =
         (Returned tt, c', [EOp (setImageFile None); EOp (setImagePreview None)])
       /\ imageFile (fst c') = None
       /\ imagePreview (fst c') = None
       /\ state (fst c') = state (fst c).
Proof.
  intros Hty msg refused. subst refused. destruct c as [s w].
  unfold handleDrop, handleFileChange, handleImageSelection. cbn.
  rewrite Hty. cbn.
  repeat split; eexists; (split; [reflexivity|]); cbn; repeat split.
Qed.

Lemma handleImageSelection_validation_witness :
  exists c',
    run (Examples.always Examples.all_fine)
        (handleDrop Examples.with_png (Some [Examples.pdf]))
        (Examples.with_png, Examples.loaded_world) [] =
      (Returned tt, c',
       [EOp preventDefault;
        EOp (setState (Error "Unsupported file. Please select an image."))])
    /\ state (fst c') = Error "Unsupported file. Please select an image."
    /\ imageFile (fst c') = Some Examples.png
    /\ imagePreview (fst c') = None
    /\ snd c' = Examples.loaded_world.
Proof.
  refine (proj1 (proj2 (proj2
    (handleImageSelection_validation (Examples.always Examples.all_fine)
       Examples.with_png (Examples.with_png, Examples.loaded_world)
       Examples.pdf [] _)))).
  reflexivity.
Defined.

(** ** The arguments of [exec] *)


(** ** The fade-out start in binary64 *)

Section Rounding.
Variables prec emax : Z.








End Rounding.









(** The two constants, and a duration off the slider: 2.3 is the binary64
    value [5179139571476070 * 2^-51], and the start computed for it is one
    unit in the last place below the binary64 value nearest to 1.8. *)
Example binary64_constants :
  Binary64.valid Binary64.half = true
  /\ Binary64.to_Q Binary64.half = Some ((4503599627370496 # 1) * 2 ^ (-53))%Q
  /\ ((4503599627370496 # 1) * 2 ^ (-53) == 1 # 2)%Q
  /\ fade_out_st (S754_finite false 5179139571476070 (-51))
     = S754_finite false 8106479329266892 (-52).
Proof. repeat split; vm_compute; reflexivity. Qed.





(** ** Successful runs *)

(** Split an explicit trace before its last [n] events. *)
Ltac split_trace n :=
  lazymatch goal with
  | |- ?tr = ?pre ++ _ => unify pre (take (length tr - n) tr); reflexivity
  end.

(** The same, when the event at the split is a call to be found. *)
Ltac split_at_call n :=
  lazymatch goal with
  | |- ?tr = ?pre ++ ECall ?call :: _ =>
      unify pre (take (length tr - n) tr);
      let ev := eval cbn in (tr !! (length tr - n)%nat) in
      lazymatch ev with Some (ECall ?c0) => unify call c0 end;
      reflexivity
  end.

(** A run of [generateVideo] that ends with the status [Idle] went through
    the whole body: its trace ends with the nine events below, and nothing
    before them touches a file or creates a URL. *)
Lemma generateVideo_success (env : Env) (r : Store) (c : Config)
    (res : Result unit) (c' : Config) (tr : list Event) :
  run env (generateVideo r) c [] = (res, c', tr) ->
  state (fst c') = Idle ->
  exists (f : File) (pre : list Event) (t_in t_out : Z) (data : Uint8Array)
         (args : list string) (fileData : FileData),
    let inputName := "input" +:+ pretty t_in +:+ ".png" in
    let outputName := "output" +:+ pretty t_out +:+ ".mp4" in
    let blob := {| blob_parts := blob_content fileData; blob_type := "video/mp4" |} in
    let url := next_url (snd c) in
    imageFile r = Some f
    /\ tr = pre ++
         [ ECall (fetchFile f);
           ECall (FFmpeg_writeFile inputName data);
           ECall (FFmpeg_exec args);
           ECall (FFmpeg_readFile outputName);
           ECall (FFmpeg_deleteFile inputName);
           ECall (FFmpeg_deleteFile outputName);
           EOp (createObjectURL (FromBlob blob));
           EOp (setVideoUrl (Some url));
           EOp (setState Idle) ]
    /\ Forall (fun e => file_io e = false) pre
    /\ env (pre ++ [ECall (fetchFile f)]) (fetchFile f) = Resolved data
    /\ env (pre ++ [ECall (fetchFile f);
                    ECall (FFmpeg_writeFile inputName data);
                    ECall (FFmpeg_exec args);
                    ECall (FFmpeg_readFile outputName)])
           (FFmpeg_readFile outputName) = Resolved fileData
    /\ args !! 3%nat = Some inputName
    /\ last args = Some outputName
    /\ res = Returned tt
    /\ videoUrl (fst c') = Some url
    /\ blobs (snd c') !! url = Some (FromBlob blob).
Proof.
  generateVideo_runs r c; intros Hrun Hidle; inversion Hrun; subst; clear Hrun;
    cbn in Hidle; try discriminate Hidle.
  all: eexists _, _, _, _, _, _, _; cbn zeta.
  all: split; [reflexivity|].
  all: split; [split_trace 9%nat|].
  all: split; [cbn; repeat constructor|].
  all: split; [cbn; eassumption|].
  all: split; [cbn; eassumption|].
  all: cbn; repeat split; apply lookup_insert_eq.
Qed.

Lemma filter_file_io_none (pre : list Event) :
  Forall (fun e => file_io e = false) pre -> filter file_io pre = [].
Proof.
  induction 1 as [|e pre He _ IH]; [reflexivity|].
  rewrite filter_cons, He. exact IH.
Qed.

(** The two generated names never coincide. *)
Lemma input_output_names_differ (t_in t_out : Z) :
  "input" +:+ pretty t_in +:+ ".png" <> "output" +:+ pretty t_out +:+ ".mp4".
Proof. cbn. discriminate. Qed.

(** C2. A successful run of [generateVideo] moves exactly one file in and
    one file out, in this order: the selected image is fetched and written
    under the input name, [exec] is called once on that input name and one
    output name, that output file is read back, both files are deleted, and
    one object URL is created for the blob and installed as the video URL,
    where the preview and the download link take it from. *)
Theorem generateVideo_one_file_in_one_file_out (env : Env) (r : Store)
    (c : Config) (res : Result unit) (c' : Config) (tr : list Event) :
  run env (generateVideo r) c [] = (res, c', tr) ->
  state (fst c') = Idle ->
  exists (f : File) (t_in t_out : Z) (data : Uint8Array) (args : list string)
         (blob : Blob) (url : URL),
    let inputName := "input" +:+ pretty t_in +:+ ".png" in
    let outputName := "output" +:+ pretty t_out +:+ ".mp4" in
    imageFile r = Some f
    /\ filter file_io tr =
         [ ECall (fetchFile f);
           ECall (FFmpeg_writeFile inputName data);
           ECall (FFmpeg_exec args);
           ECall (FFmpeg_readFile outputName);
           ECall (FFmpeg_deleteFile inputName);
           ECall (FFmpeg_deleteFile outputName);
           EOp (createObjectURL (FromBlob blob)) ]
    /\ (exists hist, env hist (fetchFile f) = Resolved data)
    /\ args !! 3%nat = Some inputName
    /\ last args = Some outputName
    /\ inputName <> outputName
    /\ blobs (snd c') !! url = Some (FromBlob blob)
    /\ videoUrl (fst c') = Some url
    /\ preview (fst c') = video_src url
    /\ download_link (fst c') = Some (url, "image-video.mp4").
Proof.
  intros Hrun Hidle.
  destruct (generateVideo_success env r c res c' tr Hrun Hidle)
    as (f & pre & t_in & t_out & data & args & fileData & Hgen).
  cbn zeta in Hgen.
  destruct Hgen as (Hf & -> & Hpre & Hdata & _ & Hin & Hout & _ & Hurl & Hblob).
  eexists f, t_in, t_out, data, args, _, (next_url (snd c)). cbn zeta.
  split; [exact Hf|]. split.
  { rewrite filter_app, (filter_file_io_none pre Hpre). reflexivity. }
  split; [eauto|]. split; [exact Hin|]. split; [exact Hout|].
  split; [apply input_output_names_differ|]. split; [exact Hblob|].
  split; [exact Hurl|]. unfold preview, download_link. rewrite Hurl.
  split; reflexivity.
Qed.

Lemma generateVideo_one_file_in_one_file_out_witness :
  exists (f : File) (t_in t_out : Z) (data : Uint8Array) (args : list string)
         (blob : Blob) (url : URL),
    let inputName := "input" +:+ pretty t_in +:+ ".png" in
    let outputName := "output" +:+ pretty t_out +:+ ".mp4" in
    let out := run (Examples.always Examples.all_fine) (generateVideo Examples.with_png)
                 (Examples.with_png, Examples.loaded_world) [] in
    imageFile Examples.with_png = Some f
    /\ filter file_io out.2 =
         [ ECall (fetchFile f);
           ECall (FFmpeg_writeFile inputName data);
           ECall (FFmpeg_exec args);
           ECall (FFmpeg_readFile outputName);
           ECall (FFmpeg_deleteFile inputName);
           ECall (FFmpeg_deleteFile outputName);
           EOp (createObjectURL (FromBlob blob)) ]
    /\ (exists hist, (Examples.always Examples.all_fine) hist (fetchFile f) = Resolved data)
    /\ args !! 3%nat = Some inputName
    /\ last args = Some outputName
    /\ inputName <> outputName
    /\ blobs (snd out.1.2) !! url = Some (FromBlob blob)
    /\ videoUrl (fst out.1.2) = Some url
    /\ preview (fst out.1.2) = video_src url
    /\ download_link (fst out.1.2) = Some (url, "image-video.mp4").
Proof.
  apply (generateVideo_one_file_in_one_file_out (Examples.always Examples.all_fine)
           Examples.with_png (Examples.with_png, Examples.loaded_world)
           (Returned tt)); reflexivity.
Defined.

(** C7. After a successful run the result is an MP4 blob behind one object
    URL: the data that [readFile] resolved to, taken as it is when it is a
    byte array and UTF-8 encoded when it is a string, is the content of a
    blob of type "video/mp4"; the blob's object URL is the source of the
    video element and the href of the download link. *)
Theorem generated_video_is_mp4_blob (env : Env) (r : Store) (c : Config)
    (res : Result unit) (c' : Config) (tr : list Event) :
  run env (generateVideo r) c [] = (res, c', tr) ->
  state (fst c') = Idle ->
  exists (outputName : string) (hist : list Event) (fileData : FileData)
         (url : URL),
    hist `prefix_of` tr
    /\ last hist = Some (ECall (FFmpeg_readFile outputName))
    /\ env hist (FFmpeg_readFile outputName) = Resolved fileData
    /\ blobs (snd c') !! url =
         Some (FromBlob
                 {| blob_parts :=
                      match fileData with
                      | DataBytes bytes => bytes
                      | DataText text => TextEncoder_encode text
                      end;
                    blob_type := "video/mp4" |})
    /\ preview (fst c') = video_src url
    /\ download_link (fst c') = Some (url, "image-video.mp4").
Proof.
  intros Hrun Hidle.
  destruct (generateVideo_success env r c res c' tr Hrun Hidle)
    as (f & pre & t_in & t_out & data & args & fileData & Hgen).
  cbn zeta in Hgen.
  destruct Hgen as (_ & -> & _ & _ & Hread & _ & _ & _ & Hurl & Hblob).
  eexists _, (pre ++ [ECall (fetchFile f); ECall (FFmpeg_writeFile _ data);
                      ECall (FFmpeg_exec args); ECall (FFmpeg_readFile _)]),
    fileData, (next_url (snd c)).
  split; [|split; [|split; [exact Hread|]]].
  - apply prefix_app. eexists. reflexivity.
  - rewrite last_app. reflexivity.
  - split; [exact Hblob|]. unfold preview, download_link. rewrite Hurl.
    split; reflexivity.
Qed.

Lemma generated_video_is_mp4_blob_witness :
  let out := run (Examples.always Examples.text_output)
               (generateVideo Examples.with_png)
               (Examples.with_png, Examples.loaded_world) [] in
  exists (outputName : string) (hist : list Event) (fileData : FileData)
         (url : URL),
    hist `prefix_of` out.2
    /\ last hist = Some (ECall (FFmpeg_readFile outputName))
    /\ Examples.always Examples.text_output hist (FFmpeg_readFile outputName)
       = Resolved fileData
    /\ blobs (snd out.1.2) !! url =
         Some (FromBlob
                 {| blob_parts :=
                      match fileData with
                      | DataBytes bytes => bytes
                      | DataText text => TextEncoder_encode text
                      end;
                    blob_type := "video/mp4" |})
    /\ preview (fst out.1.2) = video_src url
    /\ download_link (fst out.1.2) = Some (url, "image-video.mp4").
Proof.
  apply (generated_video_is_mp4_blob (Examples.always Examples.text_output)
           Examples.with_png (Examples.with_png, Examples.loaded_world)
           (Returned tt)); reflexivity.
Defined.

(** ** Loading the module *)

(** C4, counterexample. The claim that every invocation of [load] calls the
    library, with no caching of a loaded instance, fails: once the instance held by the ref
    is loaded, [load] returns it and calls nothing. *)
Lemma load_reuses_loaded_instance :
  ~ (forall (env : Env) (c : Config),
        FFmpeg_load load_config ∈ calls (run env load c []).2).
Proof.
  intros H.
  specialize (H (Examples.always Examples.all_fine)
                (initial_store, Examples.loaded_world)).
  vm_compute in H. apply elem_of_nil in H. exact H.
Qed.

(** C4, amended. One invocation of [load] makes at most one call into the
    library, the direct [ffmpegInstance.load] with the three fixed URLs, and
    never repeats it. The instance is created only when the ref is empty and
    stays in the ref; when the instance in the ref is already loaded, [load]
    makes no call, changes nothing and returns that instance. *)
Theorem load_calls_library_at_most_once (env : Env) (c : Config) :
  let '(res, c', tr) := run env load c [] in
  length (filter creates_instance tr)
    = (if ffmpegRef (snd c) is None then 1%nat else 0%nat)
  /\ is_Some (ffmpegRef (snd c'))
  /\ if default false (loaded <$> ffmpegRef (snd c))
     then calls tr = [] /\ res = Returned ffmpegRef_current /\ c' = c
     else calls tr =
            [FFmpeg_load
               {| coreURL := "https://unpkg.com/@ffmpeg/core@0.12.9/dist/umd/ffmpeg-core.js";
                  wasmURL := "https://unpkg.com/@ffmpeg/core@0.12.9/dist/umd/ffmpeg-core.wasm";
                  workerURL := "https://unpkg.com/@ffmpeg/core@0.12.9/dist/umd/ffmpeg-core.worker.js" |}]
          /\ match res with
             | Returned _ => ffmpegRef (snd c') = Some {| loaded := true |}
             | Thrown _ => ffmpegState (fst c') = Error load_failed
             end.
Proof.
  destruct c as [s [ref ? ? ? ?]]. unfold load, await, op.
  destruct ref as [[[|]]|]; cbn; repeat (ask_env; cbn); repeat split; eauto.
Qed.

(** ** Failures *)

(** All ways to split an explicit trace at one of its events. *)
Ltac split_points H pre :=
  let ev := fresh "ev" in
  destruct pre as [|ev pre]; cbn in H;
  [ first [ discriminate H | injection H as <- <- ]
  | first [ discriminate H | injection H as <- H; split_points H pre ] ].

(** C3. A failure is answered by one error message and nothing else.
    When the library rejects the load, [load] logs the error, sets the
    hook's status to its one message and rethrows: that is the whole rest
    of its run, and nothing but the status differs from the state at the
    call. A run of [generateVideo] with an image selected always returns;
    it ends with the status [Idle] or one of its calls was rejected; and
    whichever call was rejected, nothing follows that call except the error
    branches: for a rejected load [load]'s own, then [generateVideo]'s,
    which logs the error and sets the status to its one message. So no call
    is made after a rejected one, none is repeated, no file is deleted and
    no URL is touched, and the message shown is that single message. *)
Theorem failure_sets_one_message (env : Env) :
  (forall (c : Config) (e : Exn),
      ffmpegRef (snd c) <> Some {| loaded := true |} ->
      env (load_begins c ++ [ECall (FFmpeg_load load_config)])
        (FFmpeg_load load_config) = Rejected e ->
      run env load c []
      = (Thrown e,
         (with_ffmpegState
            (Error "Failed to load FFmpeg. Please refresh and try again.") (fst c),
          with_ffmpegRef (Some {| loaded := false |}) (snd c)),
         load_begins c
           ++ [ ECall (FFmpeg_load load_config);
                EOp (console_error e);
                EOp (setFFmpegState
                       (Error "Failed to load FFmpeg. Please refresh and try again.")) ]))
  /\ (forall (r : Store) (c : Config) (f : File),
         imageFile r = Some f ->
         let out := run env (generateVideo r) c [] in
         let msg :=
           "Something went wrong while generating the video. Please try again." in
         out.1.1 = Returned tt
         /\ (state (fst out.1.2) = Idle
             \/ exists pre call post e, failure env out.2 pre call post e)
         /\ forall pre call post e,
              failure env out.2 pre call post e ->
              (post = [EOp (console_error e); EOp (setState (Error msg))]
               \/ call = FFmpeg_load load_config
                  /\ post =
                       [ EOp (console_error e);
                         EOp (setFFmpegState
                                (Error "Failed to load FFmpeg. Please refresh and try again."));
                         EOp (console_error e);
                         EOp (setState (Error msg)) ])
              /\ state (fst out.1.2) = Error msg
              /\ statusMessage out.1.2 = msg
              /\ videoUrl (fst out.1.2) = None).
Proof.
  split.
  - intros [s [ref bl nx clk rd]] e Href. cbn in Href.
    unfold load_begins, load, await, op.
    destruct ref as [[[|]]|]; cbn; try congruence; intros Hrej; cbn in Hrej;
      rewrite Hrej; reflexivity.
  - intros r c f Himg out msg. subst out msg.
    generateVideo_runs r c; try discriminate.
    all: split; [reflexivity|].
    all: split;
      [ first [ left; reflexivity
              | right; eexists _, _, _, _; split;
                [ first [split_at_call 3%nat | split_at_call 5%nat]
                | cbn; eassumption ] ]
      | ].
    all: intros ? ? ? ? [Htr Hrej].
    all: lazymatch type of Htr with _ = ?pre ++ _ => split_points Htr pre end.
    all: cbn in Hrej;
         match goal with
         | Ha : ?ask ?h ?c = _ |- _ =>
             tryif constr_eq Ha Hrej then fail else
             lazymatch type of Hrej with ask h c = _ => rewrite Ha in Hrej end
         end;
         first [discriminate Hrej | injection Hrej as <-].
    all: split; [first [left; reflexivity | right; split; reflexivity]|].
    all: repeat split.
Qed.

Lemma failure_sets_one_message_witness :
  let env := Examples.always Examples.exec_fails in
  let out := run env (generateVideo Examples.with_png)
               (Examples.with_png, Examples.loaded_world) [] in
  let msg :=
    "Something went wrong while generating the video. Please try again." in
  (exists pre args,
      failure env out.2 pre (FFmpeg_exec args)
        [EOp (console_error "Aborted"); EOp (setState (Error msg))] "Aborted")
  /\ out.1.1 = Returned tt
  /\ state (fst out.1.2) = Error msg
  /\ statusMessage out.1.2 = msg
  /\ videoUrl (fst out.1.2) = None.
Proof.
  intros env out msg.
  destruct (proj2 (failure_sets_one_message env) Examples.with_png
              (Examples.with_png, Examples.loaded_world) Examples.png eq_refl)
    as (Hres & _ & Hfail).
  assert (Hf : failure env out.2 (take 8 out.2)
                 (FFmpeg_exec
                    [ "-loop"; "1"; "-i"; "input1700000000000.png"; "-c:v";
                      "libx264"; "-t"; "5"; "-vf";
                      "fps=30,fade=t=in:st=0:d=0.5,fade=t=out:st=4.5:d=0.5,format=yuv420p";
                      "-pix_fmt"; "yuv420p"; "-movflags"; "+faststart";
                      "output1700000000001.mp4" ])
                 [EOp (console_error "Aborted"); EOp (setState (Error msg))]
                 "Aborted")
    by (split; vm_compute; reflexivity).
  destruct (Hfail _ _ _ _ Hf) as (_ & Hst & Hmsg & Hv).
  split; [eexists _, _; exact Hf|]. split; [exact Hres|].
  split; [exact Hst|]. split; [exact Hmsg|exact Hv].
Defined.

(** ** When the module is loaded *)

(** C5, counterexample. The claim that loading is not initiated before a
    generation action fails: mounting the component already issues the library's load call,
    with no user action at all. *)
Lemma load_starts_at_mount :
  ~ (forall (clk : nat -> Z) (ls : list Label) (sys : Sys),
        steps ls (mount clk) = Some sys ->
        (exists cfg, ECall (FFmpeg_load cfg) ∈ trace sys) ->
        UI ClickGenerate ∈ ls).
Proof.
  intros H.
  assert (Hl : UI ClickGenerate ∈ []).
  { apply (H Examples.clk [] (mount Examples.clk) eq_refl).
    exists load_config. in_list. }
  apply elem_of_nil in Hl. exact Hl.
Qed.

(** C5, amended. The module is loaded eagerly. Mounting the component runs
    the effect that calls [load], which creates the instance and issues the
    library's load call before the user has done anything; that call is
    what the page then waits for. The "Generate MP4" button is disabled
    until the module is loaded, and a generation started on a loaded module
    makes no load call of its own. *)
Theorem load_is_eager (clk : nat -> Z) :
  trace (mount clk) =
    [ EOp ref_current; EOp ref_new_FFmpeg; EOp ref_current;
      EOp (setFFmpegState Loading); ECall (FFmpeg_load load_config) ]
  /\ (exists k, tasks (mount clk) = [Await (FFmpeg_load load_config) k])
  /\ (forall c : Config, enabled ClickGenerate c = true -> ready c = true)
  /\ (forall (env : Env) (r : Store) (c : Config) (cfg : LoadConfig),
         ready c = true ->
         ECall (FFmpeg_load cfg) ∉ (run env (generateVideo r) c []).2).
Proof.
  split; [reflexivity|]. split; [eexists; reflexivity|]. split.
  - intros c. unfold enabled, controls_disabled.
    destruct (ready c); [reflexivity | discriminate].
  - intros env r c cfg Hready Hin. revert Hready Hin. unfold ready.
    generateVideo_runs r c; rewrite ?andb_false_r; try discriminate;
      intros _ Hin; find_event Hin.
Qed.

Lemma load_is_eager_witness :
  ECall (FFmpeg_load load_config)
    ∉ (run (Examples.always Examples.all_fine) (generateVideo Examples.with_png)
         (Examples.with_png, Examples.loaded_world) []).2.
Proof.
  apply (proj2 (proj2 (proj2 (load_is_eager Examples.clk)))).
  reflexivity.
Defined.

(** ** Invariants of the page *)

Section Invariants.

(** [P] constrains events, [I] the React state. *)
Variable P : Event -> Prop.
Variable I : Store -> Prop.

Lemma emits_only_bind {A B} (m : Prog A) (f : A -> Prog B) :
  emits_only P m -> (forall a, emits_only P (f a)) -> emits_only P (bind m f).
Proof.
  intros Hm Hf. induction m as [a|e|o k IH|c k IH]; cbn in *.
  - apply Hf.
  - exact Logic.I.
  - destruct Hm as [Ho Hk]. split; [exact Ho|]. intros x. apply IH, Hk.
  - destruct Hm as [Hc Hk]. split; [exact Hc|]. intros r. apply IH, Hk.
Qed.

Lemma emits_only_try_catch {A} (m : Prog A) (h : Exn -> Prog A) :
  emits_only P m -> (forall e, emits_only P (h e)) -> emits_only P (try_catch m h).
Proof.
  intros Hm Hh. induction m as [a|e|o k IH|c k IH]; cbn in *.
  - exact Logic.I.
  - apply Hh.
  - destruct Hm as [Ho Hk]. split; [exact Ho|]. intros x. apply IH, Hk.
  - destruct Hm as [Hc Hk]. split; [exact Hc|]. intros r. apply IH, Hk.
Qed.

Hypothesis op_preserves :
  forall (o : Op) (c : Config), P (EOp o) -> I (fst c) -> I (fst (do_op o c).2).

Lemma advance_sound {A} (p : Prog A) (c : Config) (tr : list Event) :
  emits_only P p -> I (fst c) -> Forall P tr ->
  let '(p', c', tr') := advance p c tr in
  emits_only P p' /\ I (fst c') /\ Forall P tr'.
Proof.
  revert c tr. induction p as [a|e|o k IH|call k IH]; intros c tr Hp Hc Htr; cbn.
  - auto.
  - auto.
  - destruct Hp as [Ho Hk].
    pose proof (op_preserves o c Ho Hc) as Hc'.
    destruct (do_op o c) as [x c1]. apply IH; [apply Hk | exact Hc' |].
    apply Forall_app. split; [exact Htr | repeat constructor; exact Ho].
  - split; [exact Hp|]. split; [exact Hc|].
    apply Forall_app. split; [exact Htr | repeat constructor; apply Hp].
Qed.

End Invariants.

Lemma Math_max_slider (d : Z) :
  2 <= d -> Math_max (inject_Z d - (1 # 2))%Q 0%Q = (inject_Z d - (1 # 2))%Q.
Proof.
  intros Hd. unfold Math_max.
  destruct (Qle_bool (inject_Z d - (1 # 2)) 0) eqn:E; [|reflexivity].
  exfalso. apply Qle_bool_iff in E. unfold Qle in E. cbn in E. lia.
Qed.

Lemma allowed_preserves_slider_values (o : Op) (c : Config) :
  allowed (EOp o) -> slider_values (fst c) -> slider_values (fst (do_op o c).2).
Proof.
  destruct c as [s w]. unfold slider_values.
  intros Ho (d & f & Hd & Hdr & Hf & Hfr).
  destruct o; cbn in *; eauto 10.
  - destruct Ho as (d' & -> & Hd'). eauto 10.
  - destruct Ho as (f' & -> & Hf'). eauto 10.
Qed.

(** Stepping through a program whose shape is known. *)
Ltac emits :=
  repeat first
    [ progress cbn
    | match goal with
      | |- _ /\ _ => split
      | |- True => exact Logic.I
      | |- forall _, _ => intro
      | |- context [match ?x with _ => _ end] => is_var x; destruct x
      | |- context [loaded <$> ?x] => is_var x; destruct x as [[[|]]|]
      end ].

Lemma load_allowed : emits_only allowed load.
Proof. unfold load, await, op. emits. Qed.

Lemma handleImageSelection_allowed (r : Store) (file : option File) :
  emits_only allowed (handleImageSelection r file).
Proof.
  unfold handleImageSelection, op. destruct file as [f|]; [|emits].
  destruct (startsWith (file_type f) "image/"); [|emits].
  destruct (imagePreview r); emits.
Qed.

Lemma resetVideo_allowed (r : Store) : emits_only allowed (resetVideo r).
Proof. unfold resetVideo, op. destruct (videoUrl r); emits. Qed.

Lemma generateVideo_allowed (r : Store) :
  slider_values r -> emits_only allowed (generateVideo r).
Proof.
  intros (d & f & Hd & Hdr & Hf & Hfr). unfold generateVideo.
  destruct (imageFile r) as [img|]; [|unfold op; emits].
  apply emits_only_try_catch; [|intros e; unfold op; emits].
  apply emits_only_bind; [unfold op; emits|]. intros _.
  apply emits_only_bind; [apply resetVideo_allowed|]. intros _.
  apply emits_only_bind; [apply load_allowed|]. intros inst.
  unfold await, op. emits.
  exists ("input" +:+ pretty x +:+ ".png"), ("output" +:+ pretty x0 +:+ ".mp4"), d, f.
  rewrite Hd, Hf, (Math_max_slider d) by lia. auto.
Qed.

Lemma handler_allowed (ev : UIEvent) (c : Config) :
  slider_values (fst c) -> enabled ev c = true ->
  emits_only allowed (handler ev (fst c)).
Proof.
  intros Hs Hen. destruct ev as [files|files|v|v| |]; cbn in *.
  - apply handleImageSelection_allowed.
  - split; [exact Logic.I|]. intros _. apply handleImageSelection_allowed.
  - split; [|intros; exact Logic.I]. exists v. split; [reflexivity|].
    apply andb_prop in Hen as [Hen Hmax]. apply andb_prop in Hen as [_ Hmin]. lia.
  - split; [|intros; exact Logic.I]. exists v. split; [reflexivity|].
    apply andb_prop in Hen as [_ Hv]. apply bool_decide_eq_true in Hv. exact Hv.
  - apply generateVideo_allowed, Hs.
  - apply emits_only_bind; [apply resetVideo_allowed|]. intros _. emits.
Qed.

Lemma deliver_store (call : Call) (r : Outcome (Resp call)) (c : Config) :
  fst (deliver call r c) = fst c.
Proof. destruct call, r; reflexivity. Qed.

Lemma handle_inv (l : Label) (s s' : Sys) :
  page_inv s -> handle l s = Some s' -> page_inv s'.
Proof.
  intros (Hs & Htr & Hts). destruct l as [ev|i answer]; cbn.
  - destruct (enabled ev (config s)) eqn:Hen; [|discriminate].
    pose proof (advance_sound allowed slider_values
                  allowed_preserves_slider_values
                  (handler ev (fst (config s))) (config s) (trace s)
                  (handler_allowed ev (config s) Hs Hen) Hs Htr) as Hadv.
    destruct (advance _ _ _) as [[p c] tr]. destruct Hadv as (Hp & Hc & Htr').
    intros [= <-]. repeat split; cbn; try assumption.
    destruct (suspended p); [|exact Hts].
    apply Forall_app. split; [exact Hts | repeat constructor; exact Hp].
  - destruct (tasks s !! i) as [[a|e|o k|call k]|] eqn:Hi; try discriminate.
    cbn.
    pose proof (Forall_lookup_1 _ _ _ _ Hts Hi) as [_ Hk].
    assert (Hs' : slider_values (fst (deliver call (answer call) (config s))))
      by (rewrite deliver_store; exact Hs).
    pose proof (advance_sound allowed slider_values
                  allowed_preserves_slider_values
                  (k (answer call)) _ (trace s) (Hk _) Hs' Htr) as Hadv.
    destruct (advance _ _ _) as [[p c] tr]. destruct Hadv as (Hp & Hc & Htr').
    intros [= <-]. repeat split; cbn; try assumption.
    destruct (suspended p).
    + apply Forall_insert; assumption.
    + apply Forall_delete. exact Hts.
Qed.

Lemma commit_inv (prev : Store) (s : Sys) : page_inv s -> page_inv (commit prev s).
Proof.
  intros (Hs & Htr & Hts). unfold commit.
  match goal with
  | |- context [advance ?p ?c ?t] =>
      pose proof (advance_sound allowed slider_values
                    allowed_preserves_slider_values p c t) as Hadv;
      destruct (advance p c t) as [[p' c'] tr']
  end.
  destruct Hadv as (_ & Hc & Htr'); try assumption.
  - unfold cleanup_imagePreview, cleanup_videoUrl, op.
    destruct (decide _); destruct (decide _);
      destruct (imagePreview prev); destruct (videoUrl prev); emits.
  - repeat split; assumption.
Qed.

Lemma mount_inv (clk : nat -> Z) : page_inv (mount clk).
Proof.
  apply commit_inv. cbn. repeat split.
  - exists 5, 30. repeat split; try reflexivity; try lia.
    apply list_elem_of_further, list_elem_of_here.
  - repeat constructor.
  - repeat constructor. intros [x|e]; emits.
Qed.

Lemma steps_inv (ls : list Label) (s s' : Sys) :
  page_inv s -> steps ls s = Some s' -> page_inv s'.
Proof.
  revert s. induction ls as [|l ls IH]; intros s Hs; cbn.
  - intros [= <-]. exact Hs.
  - unfold step. destruct (handle l s) as [s1|] eqn:Hl; [|discriminate]. cbn.
    apply IH, commit_inv. exact (handle_inv l s s1 Hs Hl).
Qed.

(** ** The filter pipeline *)

(** C1. Every [exec] call the page ever makes has the argument list of the
    source: the image is looped ([-loop 1]), the video filter fades in for
    0.5 s from time 0 and fades out for 0.5 s from [d - 0.5], that is up to
    the end of the [d]-second clip, and the output is encoded with libx264
    in yuv420p. Only the duration [d], the frame rate [f] and the two
    generated file names differ from one request to the next. *)
Theorem exec_arguments_are_fixed (clk : nat -> Z) (ls : list Label) (sys : Sys)
    (args : list string) :
  steps ls (mount clk) = Some sys ->
  ECall (FFmpeg_exec args) ∈ trace sys ->
  exists (inputName outputName : string) (d f : Z),
    2 <= d <= 12 /\ f ∈ [24; 30; 60]
    /\ args =
         [ "-loop"; "1"; "-i"; inputName; "-c:v"; "libx264";
           "-t"; toString (inject_Z d); "-vf";
           "fps=" +:+ toString (inject_Z f)
             +:+ ",fade=t=in:st=0:d=0.5,fade=t=out:st="
             +:+ toString (inject_Z d - (1 # 2))%Q
             +:+ ":d=0.5,format=yuv420p";
           "-pix_fmt"; "yuv420p"; "-movflags"; "+faststart"; outputName ].
Proof.
  intros Hsteps Hin.
  destruct (steps_inv ls _ sys (mount_inv clk) Hsteps) as (_ & Htr & _).
  rewrite Forall_forall in Htr. exact (Htr _ Hin).
Qed.

Lemma exec_arguments_are_fixed_witness :
  exists (inputName outputName : string) (d f : Z),
    2 <= d <= 12 /\ f ∈ [24; 30; 60]
    /\ [ "-loop"; "1"; "-i"; "input1700000000000.png"; "-c:v"; "libx264";
         "-t"; "8"; "-vf";
         "fps=60,fade=t=in:st=0:d=0.5,fade=t=out:st=7.5:d=0.5,format=yuv420p";
         "-pix_fmt"; "yuv420p"; "-movflags"; "+faststart";
         "output1700000000001.mp4" ] =
         [ "-loop"; "1"; "-i"; inputName; "-c:v"; "libx264";
           "-t"; toString (inject_Z d); "-vf";
           "fps=" +:+ toString (inject_Z f)
             +:+ ",fade=t=in:st=0:d=0.5,fade=t=out:st="
             +:+ toString (inject_Z d - (1 # 2))%Q
             +:+ ":d=0.5,format=yuv420p";
           "-pix_fmt"; "yuv420p"; "-movflags"; "+faststart"; outputName ].
Proof.
  eapply (exec_arguments_are_fixed Examples.clk
            [ Settle 0 Examples.all_fine;
              UI (ChangeDuration 8); UI (ChangeFps 60);
              UI (DropFiles (Some [Examples.png]));
              UI ClickGenerate;
              Settle 0 Examples.all_fine; Settle 0 Examples.all_fine ]).
  - reflexivity.
  - in_list.
Defined.

(** ** Object URLs *)

(** In a run that nothing interrupts, each handler revokes the URL its
    render holds before it creates the next one or clears the slot. *)
Lemma handlers_revoke_first (env : Env) (r : Store) (c : Config) (u : URL) :
  (forall f : File,
      startsWith (file_type f) "image/" = true -> imagePreview r = Some u ->
      take 2 (run env (handleImageSelection r (Some f)) c []).2
      = [EOp (revokeObjectURL u); EOp (createObjectURL (FromFile f))])
  /\ (videoUrl r = Some u ->
      (run env (resetVideo r) c []).2
      = [EOp (revokeObjectURL u); EOp (setVideoUrl None)])
  /\ (forall f : File,
        imageFile r = Some f -> videoUrl r = Some u ->
        take 3 (run env (generateVideo r) c []).2
        = [EOp (setState Processing); EOp (revokeObjectURL u);
           EOp (setVideoUrl None)]).
Proof.
  split; [|split].
  - intros f Hty Hu. destruct c as [s w].
    unfold handleImageSelection, op. cbn. rewrite Hty, Hu. reflexivity.
  - intros Hu. destruct c as [s w]. unfold resetVideo, op. rewrite Hu.
    reflexivity.
  - intros f Hf Hu. revert Hf Hu.
    generateVideo_runs r c; intros Hf Hu; try discriminate;
      injection Hu as ->; reflexivity.
Qed.

Lemma pending_ok_finished (p : Prog unit) : suspended p = false -> pending_ok p.
Proof.
  intros Hp. constructor; intros answer c tr p' c' tr' H;
    destruct p; discriminate.
Qed.

Lemma url_effect_stale (c c' : Config) :
  urls_installed c -> url_effect c c' -> stale_only (fst c) c'.
Proof.
  intros Hc [Hprev Heff] u src Hu.
  destruct Heff as [[Hb Hv]|(b & u0 & Hb & Hv)]; rewrite Hb in Hu.
  - left. specialize (Hc u src Hu). destruct src; cbn in *; congruence.
  - destruct (decide (u0 = u)) as [->|Hne].
    + rewrite lookup_insert_eq in Hu. injection Hu as <-. left. exact Hv.
    + rewrite lookup_insert_ne in Hu by exact Hne.
      specialize (Hc u src Hu). destruct src; cbn in *.
      * left. congruence.
      * right. right. split; [exact Hc|]. rewrite Hv. congruence.
Qed.

Lemma commit_urls (prev : Store) (s : Sys) :
  stale_only prev (config s) -> urls_installed (config (commit prev s)).
Proof.
  intros Hst. unfold commit, cleanup_imagePreview, cleanup_videoUrl, op.
  destruct (config s) as [cur w] eqn:Hc. cbn in *.
  destruct (decide (imagePreview prev = imagePreview cur)) as [Hp|Hp];
    destruct (decide (videoUrl prev = videoUrl cur)) as [Hv|Hv];
    destruct (imagePreview prev) as [up|] eqn:Ep;
    destruct (videoUrl prev) as [uv|] eqn:Ev; cbn;
    intros u src Hu; cbn in *.
  all: repeat match type of Hu with
         | delete ?x _ !! ?u = Some _ =>
             destruct (decide (x = u)) as [->|?];
             [rewrite lookup_delete_eq in Hu; discriminate
             |rewrite lookup_delete_ne in Hu by assumption]
         end.
  all: destruct (Hst u src Hu) as [H|[[H1 H2]|[H1 H2]]]; cbn in *;
    try exact H; congruence.
Qed.

(** One settlement of the call a handler is suspended at. *)
Ltac settle :=
  let answer := fresh "answer" in
  let Hres := fresh "Hres" in
  constructor; intros answer [? ?] ? ? ? ? Hres; cbn in Hres;
  (lazymatch type of Hres with
   | context [answer ?call] => destruct (answer call)
   end);
  cbn in Hres; injection Hres as <- <- <-.

(** The effect of a synchronous stretch read off its result. *)
Ltac url_effects :=
  lazymatch goal with
  | |- url_effect _ _ =>
      split; [reflexivity|];
      first [ left; split; reflexivity
            | right; eexists _, _; split; reflexivity ]
  end.

(** Follow a suspended handler through all its calls. *)
Ltac pending :=
  repeat first [ apply pending_ok_finished; reflexivity | url_effects | settle ].

(** Live URLs after a handler ran from a render where all were installed. *)
Ltac stale Hc :=
  let u := fresh "u" in
  let src := fresh "src" in
  let Hu := fresh "Hu" in
  intros u src Hu; cbn in *;
  repeat match type of Hu with
    | delete ?x _ !! _ = _ =>
        destruct (decide (x = u)) as [->|?];
        [ rewrite lookup_delete_eq in Hu; discriminate
        | rewrite lookup_delete_ne in Hu by assumption ]
    | <[?x := _]> _ !! _ = _ =>
        destruct (decide (x = u)) as [->|?];
        [ rewrite lookup_insert_eq in Hu; injection Hu as <-; left; reflexivity
        | rewrite lookup_insert_ne in Hu by assumption ]
    end;
  try (specialize (Hc _ _ Hu); destruct src; cbn in *;
       first [ left; assumption
             | right; left; split; congruence
             | right; right; split; congruence
             | congruence ]).

Lemma generateVideo_urls (r : Store) (w : World) (tr : list Event) :
  urls_installed (r, w) ->
  stale_only r (advance (generateVideo r) (r, w) tr).1.2
  /\ pending_ok (advance (generateVideo r) (r, w) tr).1.1.
Proof.
  intros Hc. destruct w as [ref bl nx clk rd].
  unfold generateVideo, resetVideo, load, await, op.
  destruct (imageFile r) as [f|] eqn:Hf; destruct (videoUrl r) as [uv|] eqn:Hv;
    destruct ref as [[[|]]|]; cbn.
  all: split; [stale Hc | pending].
Qed.

Lemma handleImageSelection_urls (r : Store) (w : World) (tr : list Event)
    (file : option File) :
  urls_installed (r, w) ->
  stale_only r (advance (handleImageSelection r file) (r, w) tr).1.2
  /\ pending_ok (advance (handleImageSelection r file) (r, w) tr).1.1.
Proof.
  intros Hc. destruct w as [ref bl nx clk rd].
  unfold handleImageSelection, op. destruct file as [f|]; cbn.
  - destruct (startsWith (file_type f) "image/"); cbn;
      [destruct (imagePreview r) as [up|] eqn:Hp; cbn|];
      (split; [stale Hc | pending]).
  - split; [stale Hc | pending].
Qed.

Lemma handler_urls (ev : UIEvent) (c : Config) (tr : list Event) :
  urls_installed c ->
  stale_only (fst c) (advance (handler ev (fst c)) c tr).1.2
  /\ pending_ok (advance (handler ev (fst c)) c tr).1.1.
Proof.
  intros Hc. destruct c as [r w]. destruct ev as [files|files|v|v| |]; cbn.
  - apply handleImageSelection_urls, Hc.
  - apply handleImageSelection_urls, Hc.
  - split; [stale Hc | pending].
  - split; [stale Hc | pending].
  - apply generateVideo_urls, Hc.
  - destruct w as [ref bl nx clk rd]. unfold onClick_clear, resetVideo, op.
    destruct (videoUrl r) as [uv|] eqn:Hv; cbn; (split; [stale Hc | pending]).
Qed.

Lemma handle_urls (l : Label) (s s' : Sys) :
  urls_inv s -> handle l s = Some s' ->
  stale_only (fst (config s)) (config s') /\ Forall pending_ok (tasks s').
Proof.
  intros [Hc Hts]. destruct l as [ev|i answer]; cbn.
  - destruct (enabled ev (config s)); [|discriminate].
    destruct (handler_urls ev (config s) (trace s) Hc) as [Hst Hp].
    destruct (advance _ _ _) as [[p c] tr]. intros [= <-]. cbn in *.
    split; [exact Hst|]. destruct (suspended p); [|exact Hts].
    apply Forall_app. split; [exact Hts | apply Forall_singleton; exact Hp].
  - destruct (tasks s !! i) as [task|] eqn:Hi; [|discriminate]. cbn.
    destruct (resume task answer (config s) (trace s)) as [[[p c] tr]|] eqn:Hr;
      [|discriminate]. cbn. intros [= <-]. cbn.
    destruct (Forall_lookup_1 _ _ _ _ Hts Hi) as [task Heff Hnext].
    split.
    + apply url_effect_stale; [exact Hc | exact (Heff _ _ _ _ _ _ Hr)].
    + pose proof (Hnext _ _ _ _ _ _ Hr) as Hp. destruct (suspended p).
      * apply Forall_insert; assumption.
      * apply Forall_delete. exact Hts.
Qed.

Lemma step_urls (l : Label) (s s' : Sys) :
  urls_inv s -> step l s = Some s' -> urls_inv s'.
Proof.
  intros Hs. unfold step. destruct (handle l s) as [s1|] eqn:Hl; [|discriminate].
  cbn. intros [= <-]. destruct (handle_urls l s s1 Hs Hl) as [Hst Hts].
  split; [apply commit_urls, Hst|].
  unfold commit. destruct (advance _ _ _) as [[p c] tr]. exact Hts.
Qed.

Lemma mount_urls (clk : nat -> Z) : urls_inv (mount clk).
Proof.
  split.
  - intros u src Hu. change (blobs (snd (config (mount clk)))) with (∅ : gmap URL UrlSource) in Hu.
    rewrite lookup_empty in Hu. discriminate.
  - cbn. apply Forall_singleton. pending.
Qed.

Lemma steps_urls (ls : list Label) (s s' : Sys) :
  urls_inv s -> steps ls s = Some s' -> urls_inv s'.
Proof.
  revert s. induction ls as [|l ls IH]; intros s Hs; cbn.
  - intros [= <-]. exact Hs.
  - destruct (step l s) as [s1|] eqn:Hl; [|discriminate]. cbn.
    apply IH. exact (step_urls l s s1 Hs Hl).
Qed.

(** With a render after every settled call, each live object URL is the
    installed URL of its slot at every render: the cleanup of a URL effect
    revokes what the step replaced. Renders that several settled calls
    share are the subject of [batch], at the end. *)
Lemma live_urls_are_installed (clk : nat -> Z) (ls : list Label) (sys : Sys)
    (u : URL) (src : UrlSource) :
  steps ls (mount clk) = Some sys ->
  blobs (snd (config sys)) !! u = Some src ->
  match src with
  | FromFile _ => imagePreview (fst (config sys)) = Some u
  | FromBlob _ => videoUrl (fst (config sys)) = Some u
  end.
Proof.
  intros Hsteps Hu.
  destruct (steps_urls ls _ sys (mount_urls clk) Hsteps) as [Hc _].
  exact (Hc u src Hu).
Qed.

(** An uninterrupted run is the page settling one call after the other. *)
Lemma run_advance {A} (env : Env) (p : Prog A) (c : Config) (tr : list Event) :
  run env p c tr =
    match advance p c tr with
    | (Await call k, c1, tr1) =>
        run env (k (env tr1 call)) (deliver call (env tr1 call) c1) tr1
    | (Ret a, c1, tr1) => (Returned a, c1, tr1)
    | (Throw e, c1, tr1) => (Thrown e, c1, tr1)
    | (Do o k, c1, tr1) => run env (Do o k) c1 tr1
    end.
Proof.
  revert c tr. induction p as [a|e|o k IH|call k IH]; intros c tr; cbn;
    try reflexivity.
  destruct (do_op o c) as [x c1]. apply IH.
Qed.

(** ** The page beyond single handlers *)

Lemma advance_appends {A} (p : Prog A) (c : Config) (tr : list Event) :
  advance p c tr =
    ((advance p c []).1.1, (advance p c []).1.2, tr ++ (advance p c []).2).
Proof.
  revert c tr. induction p as [a|e|o k IH|call k IH]; intros c tr; cbn.
  - rewrite app_nil_r. reflexivity.
  - rewrite app_nil_r. reflexivity.
  - destruct (do_op o c) as [x c1]. rewrite (IH x c1 (tr ++ [EOp o])).
    rewrite (IH x c1 [EOp o]). cbn. rewrite <- app_assoc. reflexivity.
  - reflexivity.
Qed.

Section Keeps.

Variable P : Event -> Prop.
Variable I : Config -> Prop.
Hypothesis op_keeps :
  forall (o : Op) (c : Config), P (EOp o) -> I c -> I (do_op o c).2.

Lemma advance_keeps {A} (p : Prog A) (c : Config) :
  emits_only P p -> I c ->
  emits_only P (advance p c []).1.1
  /\ I (advance p c []).1.2
  /\ Forall P (advance p c []).2.
Proof.
  revert c. induction p as [a|e|o k IH|call k IH]; intros c Hp Hc; cbn.
  - auto.
  - auto.
  - destruct Hp as [Ho Hk]. pose proof (op_keeps o c Ho Hc) as Hc1.
    destruct (do_op o c) as [x c1]. rewrite advance_appends. cbn.
    destruct (IH x c1 (Hk x) Hc1) as (H1 & H2 & H3).
    split; [exact H1|]. split; [exact H2|]. constructor; assumption.
  - split; [exact Hp|]. split; [exact Hc|]. repeat constructor. apply Hp.
Qed.

End Keeps.

Lemma no_call_not_suspended {A} (P : Event -> Prop) (p : Prog A) (c : Config) :
  (forall call, ~ P (ECall call)) -> emits_only P p ->
  suspended (advance p c []).1.1 = false.
Proof.
  intros HP. revert c. induction p as [a|e|o k IH|call k IH]; intros c Hp; cbn.
  - reflexivity.
  - reflexivity.
  - destruct Hp as [_ Hk]. destruct (do_op o c) as [x c1].
    rewrite advance_appends. cbn. apply IH, Hk.
  - destruct Hp as [Hc _]. destruct (HP _ Hc).
Qed.

Lemma selection_only_quiet (e : Event) : selection_only e -> module_quiet e.
Proof. destruct e as [[]|[]]; cbn; tauto. Qed.

Lemma module_quiet_no_load (e : Event) : module_quiet e -> no_load e.
Proof. destruct e as [[]|[]]; cbn; tauto. Qed.

Lemma module_quiet_keeps (ref : option FFmpeg) (g : GenerationState)
    (o : Op) (c : Config) :
  module_quiet (EOp o) -> module_is ref g c -> module_is ref g (do_op o c).2.
Proof. destruct c as [s w]. destruct o; cbn; tauto. Qed.

Lemma selection_keeps_video (o : Op) (c : Config) :
  selection_only (EOp o) -> videoUrl (fst c) = None ->
  videoUrl (fst (do_op o c).2) = None.
Proof. destruct c as [s w]. destruct o; cbn; tauto. Qed.

(** The commit touches neither the React state nor the ref nor the
    suspended handlers; it only revokes. *)
Lemma commit_effect (prev : Store) (s : Sys) :
  fst (config (commit prev s)) = fst (config s)
  /\ ffmpegRef (snd (config (commit prev s))) = ffmpegRef (snd (config s))
  /\ tasks (commit prev s) = tasks s
  /\ exists new, trace (commit prev s) = trace s ++ new
                 /\ Forall selection_only new.
Proof.
  unfold commit, cleanup_imagePreview, cleanup_videoUrl, op.
  destruct (config s) as [cur w].
  destruct (decide _); destruct (decide _);
    destruct (imagePreview prev); destruct (videoUrl prev); cbn.
  all: repeat split.
  all: eexists; split;
    [ first [ symmetry; apply app_nil_r | rewrite <- ?app_assoc; reflexivity ]
    | repeat (constructor; try exact Logic.I) ].
Qed.

Lemma calls_app (l1 l2 : list Event) : calls (l1 ++ l2) = calls l1 ++ calls l2.
Proof. unfold calls. apply omap_app. Qed.

Lemma calls_selection (l : list Event) : Forall selection_only l -> calls l = [].
Proof.
  induction 1 as [|e l He _ IH]; [reflexivity|].
  destruct e as [o|c]; [exact IH | destruct He].
Qed.

Lemma commit_phase (clk : nat -> Z) (ph : Phase) (prev : Store) (s : Sys) :
  in_phase clk ph s -> in_phase clk ph (commit prev s).
Proof.
  destruct (commit_effect prev s) as (Hst & Href & Hts & new' & Htr & Hnew').
  unfold in_phase, module_is. rewrite Hst, Href, Hts, Htr.
  destruct ph.
  - intros (Hm & Hv & Ht & new & -> & Hnew). repeat split; try tauto.
    exists (new ++ new'). rewrite app_assoc. split; [reflexivity|].
    apply Forall_app. split; assumption.
  - intros (Hm & Hv & Ht & new & -> & Hcalls & Hnew). repeat split; try tauto.
    exists (new ++ new'). rewrite app_assoc. split; [reflexivity|]. split.
    + rewrite calls_app, Hcalls, (calls_selection _ Hnew'). reflexivity.
    + apply Forall_app. split; [exact Hnew|].
      eapply Forall_impl; [exact Hnew'|].
      intros e He. apply module_quiet_no_load, selection_only_quiet, He.
  - intros (Hm & Ht & new & -> & Hnew). repeat split; try tauto.
    exists (new ++ new'). rewrite app_assoc. split; [reflexivity|].
    apply Forall_app. split; [exact Hnew|].
    eapply Forall_impl; [exact Hnew'|].
    intros e He. apply module_quiet_no_load, selection_only_quiet, He.
Qed.

Lemma handleImageSelection_selection (r : Store) (file : option File) :
  emits_only selection_only (handleImageSelection r file).
Proof.
  unfold handleImageSelection, op. destruct file as [f|]; [|emits].
  destruct (startsWith (file_type f) "image/"); [|emits].
  destruct (imagePreview r); emits.
Qed.

(** While the module is not loaded, the page only lets files be selected
    as long as there is no video. *)
Lemma not_ready_enabled (ev : UIEvent) (c : Config) :
  ffmpegRef (snd c) = Some {| loaded := false |} ->
  videoUrl (fst c) = None ->
  enabled ev c = true ->
  emits_only selection_only (handler ev (fst c)).
Proof.
  intros Href Hv. unfold enabled, controls_disabled, ready. rewrite Href, Hv.
  cbn. rewrite andb_false_r. cbn.
  destruct ev as [files|files|v|v| |]; cbn; try discriminate; intros _.
  - apply handleImageSelection_selection.
  - split; [exact Logic.I|]. intros _. apply handleImageSelection_selection.
Qed.

Lemma selection_step (ref : option FFmpeg) (g : GenerationState)
    (ev : UIEvent) (s s1 : Sys) :
  ref = Some {| loaded := false |} ->
  module_is ref g (config s) -> videoUrl (fst (config s)) = None ->
  handle (UI ev) s = Some s1 ->
  module_is ref g (config s1)
  /\ videoUrl (fst (config s1)) = None
  /\ tasks s1 = tasks s
  /\ exists new, trace s1 = trace s ++ new /\ Forall selection_only new.
Proof.
  intros -> Hm Hv. cbn.
  destruct (enabled ev (config s)) eqn:Hen; [|discriminate].
  pose proof (not_ready_enabled ev (config s) (proj1 Hm) Hv Hen) as Hp.
  rewrite advance_appends.
  pose proof (advance_keeps selection_only
                (fun c => module_is (Some {| loaded := false |}) g c
                          /\ videoUrl (fst c) = None)) as Hk.
  destruct (Hk (fun o c Ho Hc =>
                  conj (module_quiet_keeps _ _ o c (selection_only_quiet _ Ho) (proj1 Hc))
                       (selection_keeps_video o c Ho (proj2 Hc)))
               unit (handler ev (fst (config s))) (config s) Hp (conj Hm Hv))
    as (_ & [Hm1 Hv1] & Hnew).
  rewrite (no_call_not_suspended selection_only _ (config s)); [|intros call []|exact Hp].
  intros [= <-]. cbn. eauto 10.
Qed.

Lemma emits_only_impl {A} (P Q : Event -> Prop) (p : Prog A) :
  (forall e, P e -> Q e) -> emits_only P p -> emits_only Q p.
Proof.
  intros HPQ. induction p as [a|e|o k IH|call k IH]; cbn; try tauto.
  - intros [Ho Hk]. split; [apply HPQ, Ho|]. intros x. apply IH, Hk.
  - intros [Hc Hk]. split; [apply HPQ, Hc|]. intros r. apply IH, Hk.
Qed.

Lemma resetVideo_quiet (r : Store) : emits_only module_quiet (resetVideo r).
Proof. unfold resetVideo, op. destruct (videoUrl r); emits. Qed.

(** On a loaded module, [generateVideo] runs up to its first call without
    touching the module, and neither does what remains of it. *)
Lemma generateVideo_on_loaded (r s : Store) (w : World) :
  ffmpegRef w = Some {| loaded := true |} ->
  emits_only module_quiet (advance (generateVideo r) (s, w) []).1.1
  /\ module_is (ffmpegRef w) (ffmpegState s)
       (advance (generateVideo r) (s, w) []).1.2
  /\ Forall module_quiet (advance (generateVideo r) (s, w) []).2.
Proof.
  destruct w as [ref bl nx clk rd]. cbn. intros ->.
  unfold generateVideo, resetVideo, load, await, op, module_is.
  destruct (imageFile r) as [f|]; destruct (videoUrl r) as [uv|]; cbn.
  all: split; [emits|]; split; [split; reflexivity|];
    repeat (constructor; try exact Logic.I).
Qed.

Lemma handler_on_loaded (ev : UIEvent) (c : Config) :
  module_is (Some {| loaded := true |}) Idle c ->
  emits_only module_quiet (advance (handler ev (fst c)) c []).1.1
  /\ module_is (Some {| loaded := true |}) Idle
       (advance (handler ev (fst c)) c []).1.2
  /\ Forall module_quiet (advance (handler ev (fst c)) c []).2.
Proof.
  intros Hm.
  assert (Hsyn : forall p : Prog unit, emits_only module_quiet p ->
            emits_only module_quiet (advance p c []).1.1
            /\ module_is (Some {| loaded := true |}) Idle (advance p c []).1.2
            /\ Forall module_quiet (advance p c []).2).
  { intros p Hp.
    exact (advance_keeps module_quiet _ (module_quiet_keeps _ _) p c Hp Hm). }
  destruct ev as [files|files|v|v| |]; cbn [handler].
  - apply Hsyn. unfold handleFileChange.
    apply (emits_only_impl selection_only); [exact selection_only_quiet|].
    apply handleImageSelection_selection.
  - apply Hsyn. unfold handleDrop. cbn. split; [exact Logic.I|]. intros _.
    apply (emits_only_impl selection_only); [exact selection_only_quiet|].
    apply handleImageSelection_selection.
  - apply Hsyn. cbn. auto.
  - apply Hsyn. cbn. auto.
  - destruct c as [s w]. destruct Hm as [Href Hg]. cbn in Href, Hg.
    destruct (generateVideo_on_loaded s s w Href) as (H1 & H2 & H3).
    rewrite Href, Hg in H2. auto.
  - apply Hsyn. unfold onClick_clear.
    apply emits_only_bind; [apply resetVideo_quiet|]. intros _. emits.
Qed.

Lemma mount_phase (clk : nat -> Z) : in_phase clk ModuleLoading (mount clk).
Proof.
  cbn. repeat split. exists []. split; [reflexivity | constructor].
Qed.

(** One step of the page moves between the phases only from loading to
    ready or to failed. *)
Lemma step_phase (clk : nat -> Z) (ph : Phase) (l : Label) (s s' : Sys) :
  in_phase clk ph s -> step l s = Some s' ->
  exists ph',
    in_phase clk ph' s'
    /\ (ph' = ph \/ ph = ModuleLoading).
Proof.
  intros Hph. unfold step.
  destruct (handle l s) as [s1|] eqn:Hl; [|discriminate]. cbn. intros [= <-].
  enough (exists ph', in_phase clk ph' s1 /\ (ph' = ph \/ ph = ModuleLoading))
    as (ph' & H1 & H2) by (exists ph'; split; [apply commit_phase, H1 | exact H2]).
  destruct l as [ev|i answer].
  - (* the user does something *)
    destruct ph; unfold in_phase in Hph.
    + destruct Hph as (Hm & Hv & Ht & new & Htr & Hnew).
      destruct (selection_step _ _ ev s s1 eq_refl Hm Hv Hl)
        as (Hm1 & Hv1 & Ht1 & new1 & Htr1 & Hnew1).
      exists ModuleLoading. split; [|auto]. unfold in_phase.
      rewrite Ht1, Htr1, Htr. split; [exact Hm1|]. split; [exact Hv1|].
      split; [exact Ht|]. exists (new ++ new1). rewrite app_assoc.
      split; [reflexivity | apply Forall_app; auto].
    + destruct Hph as (Hm & Hv & Ht & new & Htr & Hcalls & Hnew).
      destruct (selection_step _ _ ev s s1 eq_refl Hm Hv Hl)
        as (Hm1 & Hv1 & Ht1 & new1 & Htr1 & Hnew1).
      exists ModuleFailed. split; [|auto]. unfold in_phase.
      rewrite Ht1, Htr1, Htr. split; [exact Hm1|]. split; [exact Hv1|].
      split; [exact Ht|]. exists (new ++ new1). rewrite app_assoc.
      split; [reflexivity|]. split.
      * rewrite calls_app, Hcalls, (calls_selection _ Hnew1). reflexivity.
      * apply Forall_app. split; [exact Hnew|].
        eapply Forall_impl; [exact Hnew1|].
        intros e He. apply module_quiet_no_load, selection_only_quiet, He.
    + destruct Hph as (Hm & Ht & new & Htr & Hnew).
      cbn in Hl. destruct (enabled ev (config s)); [|discriminate].
      rewrite advance_appends in Hl.
      destruct (handler_on_loaded ev (config s) Hm) as (Hp1 & Hm1 & Hnew1).
      injection Hl as <-. exists ModuleReady. split; [|auto].
      unfold in_phase. cbn [config trace tasks].
      split; [exact Hm1|]. split.
      * destruct (suspended _); [|exact Ht].
        apply Forall_app. split; [exact Ht | apply Forall_singleton, Hp1].
      * exists (new ++ (advance (handler ev (fst (config s))) (config s) []).2).
        rewrite Htr, app_assoc. split; [reflexivity|].
        apply Forall_app. split; [exact Hnew|].
        eapply Forall_impl; [exact Hnew1 | exact module_quiet_no_load].
  - (* a call settles *)
    cbn in Hl. destruct (tasks s !! i) as [task|] eqn:Hi; [|discriminate].
    cbn in Hl. destruct ph; unfold in_phase in Hph.
    + destruct Hph as ([Href Hg] & Hv & Ht & new & Htr & Hnew).
      assert (Hdel : delete 0%nat (tasks s) = []) by (rewrite Ht; reflexivity).
      rewrite Ht in Hi. destruct i as [|i]; [|discriminate Hi].
      injection Hi as <-. cbn in Hl.
      destruct (config s) as [st w] eqn:Hc. cbn in Href, Hg, Hv.
      destruct (answer (FFmpeg_load load_config)) as [b|e];
        cbn in Hl; injection Hl as <-.
      * exists ModuleReady. split; [|auto].
        unfold in_phase, module_is. cbn [config trace tasks fst snd].
        rewrite Hdel. split; [split; reflexivity|]. split; [constructor|].
        exists (new ++ [EOp (setFFmpegState Idle)]).
        rewrite Htr, app_assoc. split; [reflexivity|].
        apply Forall_app. split; [|repeat (constructor; try exact Logic.I)].
        eapply Forall_impl; [exact Hnew|].
        intros e0 He. apply module_quiet_no_load, selection_only_quiet, He.
      * exists ModuleFailed. split; [|auto].
        unfold in_phase, module_is. cbn [config trace tasks fst snd].
        rewrite Hdel. split; [split; [exact Href | reflexivity]|].
        split; [exact Hv|]. split; [reflexivity|].
        exists (new ++ [EOp (console_error e);
                        EOp (setFFmpegState (Error load_failed))]).
        rewrite Htr, <- !app_assoc. split; [reflexivity|]. split.
        -- rewrite calls_app, (calls_selection _ Hnew). reflexivity.
        -- apply Forall_app. split; [|repeat (constructor; try exact Logic.I)].
           eapply Forall_impl; [exact Hnew|].
           intros e0 He. apply module_quiet_no_load, selection_only_quiet, He.
    + destruct Hph as (_ & _ & Ht & _). rewrite Ht in Hi. discriminate Hi.
    + destruct Hph as (Hm & Ht & new & Htr & Hnew).
      pose proof (Forall_lookup_1 _ _ _ _ Ht Hi) as Htask.
      destruct task as [a|e|o k|call k]; try discriminate Hl.
      destruct Htask as [Hcall Hk]. cbn in Hl. rewrite advance_appends in Hl.
      assert (Hd : deliver call (answer call) (config s) = config s)
        by (destruct call; try reflexivity; destruct Hcall).
      rewrite Hd in Hl.
      destruct (advance_keeps module_quiet _ (module_quiet_keeps _ _)
                  (k (answer call)) (config s) (Hk _) Hm) as (Hp1 & Hm1 & Hnew1).
      injection Hl as <-. exists ModuleReady. split; [|auto].
      unfold in_phase. cbn [config trace tasks].
      split; [exact Hm1|]. split.
      * destruct (suspended _).
        -- apply Forall_insert; assumption.
        -- apply Forall_delete, Ht.
      * exists (new ++ (advance (k (answer call)) (config s) []).2).
        rewrite Htr, app_assoc. split; [reflexivity|].
        apply Forall_app. split; [exact Hnew|].
        eapply Forall_impl; [exact Hnew1 | exact module_quiet_no_load].
Qed.

Lemma steps_phase (clk : nat -> Z) (ph : Phase) (ls : list Label) (s s' : Sys) :
  in_phase clk ph s -> steps ls s = Some s' ->
  exists ph', in_phase clk ph' s' /\ (ph' = ph \/ ph = ModuleLoading).
Proof.
  revert ph s. induction ls as [|l ls IH]; intros ph s Hph; cbn.
  - intros [= <-]. eauto.
  - destruct (step l s) as [s1|] eqn:Hl; [|discriminate]. cbn. intros Hls.
    destruct (step_phase clk ph l s s1 Hph Hl) as (ph1 & Hph1 & Hor1).
    destruct (IH ph1 s1 Hph1 Hls) as (ph' & Hph' & Hor).
    exists ph'. split; [exact Hph'|].
    destruct Hor1 as [-> | ->]; [exact Hor | right; reflexivity].
Qed.

Lemma phase_trace (clk : nat -> Z) (ph : Phase) (s : Sys) :
  in_phase clk ph s ->
  exists new, trace s = trace (mount clk) ++ new /\ Forall no_load new.
Proof.
  destruct ph; unfold in_phase.
  - intros (_ & _ & _ & new & Htr & Hnew). exists new. split; [exact Htr|].
    eapply Forall_impl; [exact Hnew|].
    intros e He. apply module_quiet_no_load, selection_only_quiet, He.
  - intros (_ & _ & _ & new & Htr & _ & Hnew). eauto.
  - intros (_ & _ & new & Htr & Hnew). eauto.
Qed.

Lemma no_load_filters (new : list Event) :
  Forall no_load new ->
  filter is_load (calls new) = [] /\ filter creates_instance new = [].
Proof.
  induction 1 as [|e new He _ [IH1 IH2]]; [split; reflexivity|].
  destruct e as [o|c].
  - split; [exact IH1|]. destruct o; try exact IH2. destruct He.
  - split; [|exact IH2]. destruct c; try exact IH1. destruct He.
Qed.

(** X2. However long the page lives and whatever the user does, the FFmpeg
    instance is created once and its [load] is called once, by the mount
    effect with the three core URLs: no later handler creates or loads
    the module again. *)
Theorem module_is_loaded_once (clk : nat -> Z) (ls : list Label) (sys : Sys) :
  steps ls (mount clk) = Some sys ->
  filter is_load (calls (trace sys)) = [FFmpeg_load load_config]
  /\ length (filter creates_instance (trace sys)) = 1%nat.
Proof.
  intros Hsteps.
  destruct (steps_phase clk _ ls _ sys (mount_phase clk) Hsteps) as (ph & Hph & _).
  destruct (phase_trace clk ph sys Hph) as (new & -> & Hnew).
  destruct (no_load_filters new Hnew) as [H1 H2].
  rewrite calls_app, !filter_app, H1, H2. split; reflexivity.
Qed.

Lemma unloaded_not_ready (c : Config) :
  ffmpegRef (snd c) = Some {| loaded := false |} -> ready c = false.
Proof. intros H. unfold ready. rewrite H. apply andb_false_r. Qed.

(** X3. A mounted page is in one of three situations. While the module
    loads, the hook's status is loading, the page is not ready, its controls
    are disabled, no video is shown and the only library call made is the
    load. After a failed load the same holds with the hook's error status,
    and nothing is pending. Otherwise the hook's status is idle and the page
    is ready. *)
Theorem page_life_cycle (clk : nat -> Z) (ls : list Label) (sys : Sys) :
  steps ls (mount clk) = Some sys ->
  let page := fst (config sys) in
  (ffmpegState page = Loading
   /\ ready (config sys) = false /\ controls_disabled (config sys) = true
   /\ videoUrl page = None
   /\ calls (trace sys) = [FFmpeg_load load_config])
  \/ (ffmpegState page = Error "Failed to load FFmpeg. Please refresh and try again."
      /\ ready (config sys) = false /\ controls_disabled (config sys) = true
      /\ videoUrl page = None
      /\ calls (trace sys) = [FFmpeg_load load_config]
      /\ tasks sys = [])
  \/ (ffmpegState page = Idle /\ ready (config sys) = true).
Proof.
  intros Hsteps page. subst page.
  destruct (steps_phase clk _ ls _ sys (mount_phase clk) Hsteps) as (ph & Hph & _).
  destruct ph; unfold in_phase in Hph.
  - left. destruct Hph as ([Href Hg] & Hv & _ & new & Htr & Hnew).
    pose proof (unloaded_not_ready _ Href) as Hr.
    unfold controls_disabled. rewrite Hr. repeat split; try assumption.
    rewrite Htr, calls_app, (calls_selection _ Hnew). reflexivity.
  - right. left. destruct Hph as ([Href Hg] & Hv & Ht & new & Htr & Hcalls & _).
    pose proof (unloaded_not_ready _ Href) as Hr.
    unfold controls_disabled. rewrite Hr. repeat split; try assumption.
    rewrite Htr, calls_app, Hcalls. reflexivity.
  - right. right. destruct Hph as ([Href Hg] & _). split; [exact Hg|].
    unfold ready. rewrite Href, Hg. reflexivity.
Qed.

(** X4. A failed load is final: once the hook's status is an error, it
    keeps that error whatever the user does, the controls stay disabled, no
    video is ever shown, nothing is pending, and the load that failed stays
    the only library call. *)
Theorem failed_load_is_final (clk : nat -> Z) (ls ls' : list Label)
    (sys sys' : Sys) (message : string) :
  steps ls (mount clk) = Some sys ->
  ffmpegState (fst (config sys)) = Error message ->
  steps ls' sys = Some sys' ->
  ffmpegState (fst (config sys')) = Error message
  /\ controls_disabled (config sys') = true
  /\ videoUrl (fst (config sys')) = None
  /\ tasks sys' = []
  /\ calls (trace sys') = [FFmpeg_load load_config].
Proof.
  intros Hsteps Herr Hlater.
  destruct (steps_phase clk _ ls _ sys (mount_phase clk) Hsteps) as (ph & Hph & _).
  assert (ph = ModuleFailed) as ->.
  { destruct ph; [| reflexivity |]; unfold in_phase, module_is in Hph;
      destruct Hph as ([_ Hg] & _); congruence. }
  destruct (steps_phase clk _ ls' sys sys' Hph Hlater) as (ph' & Hph' & Hor).
  destruct Hor as [-> | Hor]; [|discriminate Hor].
  pose proof Hph as ([_ Hg0] & _). 
  destruct Hph' as ([Href Hg] & Hv & Ht & new & Htr & Hcalls & _).
  pose proof (unloaded_not_ready _ Href) as Hr.
  unfold controls_disabled. rewrite Hr. repeat split; try assumption.
  - congruence.
  - rewrite Htr, calls_app, Hcalls. reflexivity.
Qed.

(** X5. Once the page is ready it stays ready: no later event, and no
    failure of a generation, takes the loaded module away. *)
Theorem ready_is_stable (clk : nat -> Z) (ls ls' : list Label) (sys sys' : Sys) :
  steps ls (mount clk) = Some sys ->
  ready (config sys) = true ->
  steps ls' sys = Some sys' ->
  ready (config sys') = true.
Proof.
  intros Hsteps Hready Hlater.
  destruct (steps_phase clk _ ls _ sys (mount_phase clk) Hsteps) as (ph & Hph & _).
  assert (ph = ModuleReady) as ->.
  { destruct ph; [| |reflexivity]; unfold in_phase, module_is in Hph;
      destruct Hph as ([Href _] & _);
      rewrite (unloaded_not_ready _ Href) in Hready; discriminate. }
  destruct (steps_phase clk _ ls' sys sys' Hph Hlater) as (ph' & Hph' & Hor).
  destruct Hor as [-> | Hor]; [|discriminate Hor].
  destruct Hph' as ([Href Hg] & _). unfold ready. rewrite Href, Hg. reflexivity.
Qed.

Section Reachable.

Variable P : Event -> Prop.
Variable I : Config -> Prop.
Hypothesis op_keeps :
  forall (o : Op) (c : Config), P (EOp o) -> I c -> I (do_op o c).2.
Hypothesis deliver_keeps :
  forall (call : Call) (r : Outcome (Resp call)) (c : Config),
    I c -> I (deliver call r c).
Hypothesis handlers_emit :
  forall (ev : UIEvent) (r : Store), emits_only P (handler ev r).
Hypothesis revoke_ok : forall u : URL, P (EOp (revokeObjectURL u)).

Lemma step_keeps (l : Label) (s s' : Sys) :
  I (config s) -> Forall (emits_only P) (tasks s) ->
  step l s = Some s' ->
  I (config s') /\ Forall (emits_only P) (tasks s').
Proof.
  intros Hc Hts. unfold step.
  destruct (handle l s) as [s1|] eqn:Hl; [|discriminate]. cbn. intros [= <-].
  assert (H1 : I (config s1) /\ Forall (emits_only P) (tasks s1)).
  { destruct l as [ev|i answer]; cbn in Hl.
    - destruct (enabled ev (config s)); [|discriminate].
      rewrite advance_appends in Hl. injection Hl as <-. cbn.
      destruct (advance_keeps P I op_keeps (handler ev (fst (config s)))
                  (config s) (handlers_emit _ _) Hc) as (Hp & Hc1 & _).
      split; [exact Hc1|]. destruct (suspended _); [|exact Hts].
      apply Forall_app. split; [exact Hts | apply Forall_singleton, Hp].
    - destruct (tasks s !! i) as [task|] eqn:Hi; [|discriminate]. cbn in Hl.
      pose proof (Forall_lookup_1 _ _ _ _ Hts Hi) as Htask.
      destruct task as [a|e|o k|call k]; try discriminate Hl.
      destruct Htask as [_ Hk]. cbn in Hl. rewrite advance_appends in Hl.
      injection Hl as <-. cbn.
      destruct (advance_keeps P I op_keeps (k (answer call)) _ (Hk _)
                  (deliver_keeps call (answer call) _ Hc)) as (Hp & Hc1 & _).
      split; [exact Hc1|]. destruct (suspended _).
      + apply Forall_insert; assumption.
      + apply Forall_delete, Hts. }
  destruct H1 as [Hc1 Hts1]. unfold commit.
  match goal with
  | |- context [advance ?p (config s1) (trace s1)] =>
      rewrite (advance_appends p (config s1) (trace s1));
      destruct (advance_keeps P I op_keeps p (config s1)) as (_ & H2 & _);
      [|exact Hc1|]
  end.
  - unfold cleanup_imagePreview, cleanup_videoUrl, op.
    destruct (decide _); destruct (decide _);
      destruct (imagePreview (fst (config s))); destruct (videoUrl (fst (config s)));
      cbn; repeat split; auto.
  - cbn. split; [exact H2 | exact Hts1].
Qed.

Lemma steps_keep (ls : list Label) (s s' : Sys) :
  I (config s) -> Forall (emits_only P) (tasks s) ->
  steps ls s = Some s' ->
  I (config s') /\ Forall (emits_only P) (tasks s').
Proof.
  revert s. induction ls as [|l ls IH]; intros s Hc Hts; cbn.
  - intros [= <-]. auto.
  - destruct (step l s) as [s1|] eqn:Hl; [|discriminate]. cbn.
    destruct (step_keeps l s s1 Hc Hts Hl) as [Hc1 Hts1]. apply IH; assumption.
Qed.

End Reachable.

Lemma handlers_status (ev : UIEvent) (r : Store) :
  emits_only status_events (handler ev r).
Proof.
  unfold status_events, page_status.
  destruct ev as [files|files|v|v| |]; cbn [handler];
    unfold handleFileChange, handleDrop, handleImageSelection, onChange_duration,
      onChange_fps, onClick_clear, generateVideo, resetVideo, load, await, op.
  - destruct (first_file files) as [f|]; [|emits].
    destruct (startsWith (file_type f) "image/"); [destruct (imagePreview r)|];
      emits; auto 10.
  - destruct (first_file files) as [f|]; [|emits].
    destruct (startsWith (file_type f) "image/"); [destruct (imagePreview r)|];
      emits; auto 10.
  - emits.
  - emits.
  - destruct (imageFile r); destruct (videoUrl r); emits; auto 10.
  - destruct (videoUrl r); emits; auto 10.
Qed.

(** X6. The status line shows one of the three messages of the component,
    the two progress texts, the initialising text or nothing. The message of
    a failed load, which the hook stores, is never shown. *)
Theorem status_line (clk : nat -> Z) (ls : list Label) (sys : Sys) :
  steps ls (mount clk) = Some sys ->
  statusMessage (config sys) ∈
    [ "Please choose an image before generating.";
      "Unsupported file. Please select an image.";
      "Something went wrong while generating the video. Please try again.";
      "Generating video with FFmpeg…";
      "Loading FFmpeg core (runs locally in your browser)…";
      "Initializing FFmpeg…";
      "" ]
  /\ statusMessage (config sys)
     <> "Failed to load FFmpeg. Please refresh and try again.".
Proof.
  intros Hsteps.
  destruct (steps_keep status_events (fun c => page_status (state (fst c))))
    with (ls := ls) (s := mount clk) (s' := sys) as [Hst _].
  - intros o [s w] Ho Hc. destruct o; cbn in *; assumption.
  - intros call r c Hc. rewrite deliver_store. exact Hc.
  - exact handlers_status.
  - intros u. exact Logic.I.
  - left. reflexivity.
  - cbn. apply Forall_singleton. unfold status_events. emits.
  - exact Hsteps.
  - cbn in Hst. unfold statusMessage.
    destruct Hst as [-> | [-> | [-> | [-> | ->]]]].
    all: try (split; [in_list | discriminate]).
    destruct (ffmpegState (fst (config sys))); destruct (ready (config sys));
      cbn; (split; [in_list | discriminate]).
Qed.

(** X7. [generateVideo] and the mount effect's [prepare] return normally
    whatever the library does: every rejection is caught. When a generation
    has run to its end the status is no longer processing. *)
Theorem handlers_always_return (env : Env) (r : Store) (c : Config) :
  (run env (generateVideo r) c []).1.1 = Returned tt
  /\ isProcessing (fst (run env (generateVideo r) c []).1.2) = false
  /\ (run env prepare c []).1.1 = Returned tt.
Proof.
  split; [|split].
  - generateVideo_runs r c; reflexivity.
  - generateVideo_runs r c; reflexivity.
  - destruct c as [s [ref ? ? ? ?]]. unfold prepare, load, await, op.
    destruct ref as [[[|]]|]; cbn; repeat (ask_env; cbn); reflexivity.
Qed.

(** X8. [generateVideo] ignores the values that [load], [writeFile],
    [exec] and [deleteFile] resolve to; in particular the exit code of
    [exec] does not decide between success and failure, only a rejection
    does. *)
Theorem return_values_are_ignored (ok : bool) (code : Z) (env : Env)
    (r : Store) (c : Config) :
  run (with_return_values ok code env) (generateVideo r) c []
  = run env (generateVideo r) c [].
Proof.
  unfold with_return_values. generateVideo_runs r c; reflexivity.
Qed.

(** X10. A change or drop event without a file clears the selected image
    and its preview, and the commit revokes the old preview URL. The status,
    the video and the pending generations are left as they were. *)
Theorem empty_selection_clears_image (ev : UIEvent) (files : option (list File))
    (s s' : Sys) :
  ev = ChangeFile files \/ ev = DropFiles files ->
  first_file files = None ->
  step (UI ev) s = Some s' ->
  imageFile (fst (config s')) = None
  /\ imagePreview (fst (config s')) = None
  /\ (forall u, imagePreview (fst (config s)) = Some u ->
                blobs (snd (config s')) !! u = None)
  /\ state (fst (config s')) = state (fst (config s))
  /\ videoUrl (fst (config s')) = videoUrl (fst (config s))
  /\ tasks s' = tasks s.
Proof.
  intros Hev Hfiles. unfold step, handle.
  destruct (config s) as [st w] eqn:Hc.
  destruct Hev as [-> | ->]; cbn;
    unfold handleFileChange, handleDrop, handleImageSelection, commit,
      cleanup_imagePreview, cleanup_videoUrl, op;
    rewrite Hfiles; cbn;
    destruct (imagePreview st) as [up|] eqn:Hp;
    destruct (videoUrl st) as [uv|] eqn:Hv; cbn;
    repeat (lazymatch goal with
            | |- context [decide ?Q] => destruct (decide Q) as [?|?]
            end; try congruence; cbn);
    intros [= <-]; cbn; repeat split; try assumption;
    intros u [= <-]; apply lookup_delete_eq.
Qed.

(** Case analysis on the dependencies of the two URL effects at a commit. *)
Ltac commit_cases :=
  repeat (lazymatch goal with
          | |- context [decide ?Q] => destruct (decide Q) as [?|?]
          end; try congruence; cbn).

(** X11. A change or drop event whose first file has an [image/] type
    selects that file, whatever follows it in the list: the preview is a
    fresh object URL of the file, the old preview URL, if another, is
    revoked, the status is idle, and the video is kept, so that the preview
    pane goes on showing the video if there is one. *)
Theorem accepted_image_is_selected (ev : UIEvent) (f : File) (rest : list File)
    (s s' : Sys) :
  ev = ChangeFile (Some (f :: rest)) \/ ev = DropFiles (Some (f :: rest)) ->
  startsWith (file_type f) "image/" = true ->
  step (UI ev) s = Some s' ->
  let url := next_url (snd (config s)) in
  imageFile (fst (config s')) = Some f
  /\ imagePreview (fst (config s')) = Some url
  /\ blobs (snd (config s')) !! url = Some (FromFile f)
  /\ (forall u, imagePreview (fst (config s)) = Some u -> u <> url ->
                blobs (snd (config s')) !! u = None)
  /\ state (fst (config s')) = Idle
  /\ videoUrl (fst (config s')) = videoUrl (fst (config s))
  /\ preview (fst (config s')) =
       match videoUrl (fst (config s)) with
       | Some v => video_src v
       | None => img_src url
       end
  /\ tasks s' = tasks s.
Proof.
  intros Hev Hty. unfold step, handle, preview.
  destruct (config s) as [st [ref bl nx clk rd]] eqn:Hc.
  destruct Hev as [-> | ->]; cbn;
    unfold handleFileChange, handleDrop, handleImageSelection, commit,
      cleanup_imagePreview, cleanup_videoUrl, op;
    cbn; rewrite Hty; cbn;
    destruct (imagePreview st) as [up|] eqn:Hp;
    destruct (videoUrl st) as [uv|] eqn:Hv; cbn; commit_cases;
    intros [= <-]; cbn; repeat split; try assumption.
  all: try (intros u [= <-] Hne).
  all: rewrite ?lookup_delete_eq; try reflexivity.
  all: try (rewrite lookup_delete_ne by congruence).
  all: try apply lookup_insert_eq.
  all: try (exfalso; congruence).
  all: rewrite ?Hv; reflexivity.
Qed.

(** X12. Selecting a file, accepted or not, ends the processing status
    even while a generation is pending: the generation stays pending, and on
    a ready page the generate button is enabled again. *)
Theorem selection_ends_processing_status (ev : UIEvent) (f : File)
    (rest : list File) (s s' : Sys) :
  ev = ChangeFile (Some (f :: rest)) \/ ev = DropFiles (Some (f :: rest)) ->
  step (UI ev) s = Some s' ->
  isProcessing (fst (config s')) = false
  /\ ready (config s') = ready (config s)
  /\ enabled ClickGenerate (config s') = ready (config s)
  /\ tasks s' = tasks s.
Proof.
  intros Hev. unfold step, handle, enabled, controls_disabled, ready, isProcessing.
  destruct (config s) as [st [ref bl nx clk rd]] eqn:Hc.
  destruct Hev as [-> | ->]; cbn;
    unfold handleFileChange, handleDrop, handleImageSelection, commit,
      cleanup_imagePreview, cleanup_videoUrl, op;
    cbn; destruct (startsWith (file_type f) "image/"); cbn;
    destruct (imagePreview st) as [up|] eqn:Hp;
    destruct (videoUrl st) as [uv|] eqn:Hv; cbn; commit_cases;
    intros [= <-]; cbn; repeat split;
    rewrite ?orb_false_r, ?negb_involutive; reflexivity.
Qed.

(** X14. The clear button is there only while a video is shown. Clicking
    it revokes the video's URL, removes the video and the download link and
    sets the status to idle; the preview pane falls back to the image or the
    placeholder, and the selected image and the pending generations are left
    as they were. *)
Theorem clear_video (s s' : Sys) :
  step (UI ClickClear) s = Some s' ->
  exists u : URL,
    videoUrl (fst (config s)) = Some u
    /\ videoUrl (fst (config s')) = None
    /\ blobs (snd (config s')) !! u = None
    /\ state (fst (config s')) = Idle
    /\ preview (fst (config s')) =
         match imagePreview (fst (config s)) with
         | Some p => img_src p
         | None => placeholder
         end
    /\ download_link (fst (config s')) = None
    /\ enabled ClickClear (config s') = false
    /\ imageFile (fst (config s')) = imageFile (fst (config s))
    /\ imagePreview (fst (config s')) = imagePreview (fst (config s))
    /\ tasks s' = tasks s.
Proof.
  unfold step, handle, enabled, preview, download_link.
  destruct (config s) as [st [ref bl nx clk rd]] eqn:Hc. cbn.
  unfold onClick_clear, resetVideo, commit, cleanup_imagePreview,
    cleanup_videoUrl, op.
  destruct (videoUrl st) as [uv|] eqn:Hv; cbn; [|discriminate].
  rewrite ?Hv. cbn. destruct (imagePreview st) as [up|] eqn:Hp; cbn; commit_cases;
    intros [= <-]; cbn; exists uv; rewrite ?Hv, ?Hp; cbn;
    repeat split; rewrite ?lookup_delete_eq; reflexivity.
Qed.

(** X13. With an image selected, a click on the generate button at once
    sets the status to processing, which disables the controls, removes the
    current video and revokes its URL, so that the preview pane shows the
    image again, and leaves the generation waiting for [fetchFile] of the
    selected image, its first library call. *)
Theorem generate_click (s s' : Sys) (f : File) :
  imageFile (fst (config s)) = Some f ->
  step (UI ClickGenerate) s = Some s' ->
  state (fst (config s')) = Processing
  /\ statusMessage (config s') = "Generating video with FFmpeg…"
  /\ controls_disabled (config s') = true
  /\ videoUrl (fst (config s')) = None
  /\ (forall u, videoUrl (fst (config s)) = Some u ->
                blobs (snd (config s')) !! u = None)
  /\ preview (fst (config s')) =
       match imagePreview (fst (config s)) with
       | Some p => img_src p
       | None => placeholder
       end
  /\ (exists k, tasks s' = tasks s ++ [Await (fetchFile f) k])
  /\ calls (trace s') = calls (trace s) ++ [fetchFile f].
Proof.
  unfold step, handle, enabled, controls_disabled, ready, isProcessing,
    statusMessage, preview.
  destruct (config s) as [st [ref bl nx clk rd]] eqn:Hc. cbn. intros Hf.
  destruct ref as [[[|]]|]; cbn; rewrite ?andb_false_r; cbn; try discriminate.
  destruct (is_error (ffmpegState st)); cbn; [discriminate|].
  destruct (state st) eqn:Hst; cbn; try discriminate.
  all: unfold generateVideo, resetVideo, load, await, commit,
         cleanup_imagePreview, cleanup_videoUrl, op; rewrite Hf; cbn.
  all: destruct (videoUrl st) as [uv|] eqn:Hv; cbn;
       destruct (imagePreview st) as [up|] eqn:Hp; cbn; commit_cases.
  all: intros [= <-]; cbn; rewrite ?Hp; cbn.
  all: repeat split; try (eexists; reflexivity).
  all: try (intros u [= <-]; rewrite ?lookup_delete_eq; reflexivity).
  all: try apply orb_true_r.
  all: unfold calls; rewrite !omap_app; cbn; rewrite ?app_nil_r; reflexivity.
Qed.


(** X9. Every error that [generateVideo] logs is the reason of a rejected
    library call that it made: the handler raises no error of its own. *)
Theorem logged_errors_come_from_the_library (env : Env) (r : Store)
    (c : Config) (e : Exn) :
  EOp (console_error e) ∈ (run env (generateVideo r) c []).2 ->
  exists (hist : list Event) (call : Call),
    ECall call ∈ (run env (generateVideo r) c []).2
    /\ env hist call = Rejected e.
Proof.
  generateVideo_runs r c; intros Hin; find_event Hin;
    injection Hin as ->; eexists _, _; (split; [|eassumption]);
    repeat first [ apply list_elem_of_here | apply list_elem_of_further ].
Qed.

(** ** Runs of the page that meet the hypotheses above *)


Lemma module_is_loaded_once_witness :
  exists sys : Sys,
    steps overlapping_generations (mount Examples.clk) = Some sys
    /\ filter is_load (calls (trace sys)) = [FFmpeg_load load_config]
    /\ length (filter creates_instance (trace sys)) = 1%nat.
Proof.
  eexists. split; [vm_compute; reflexivity|].
  apply (module_is_loaded_once Examples.clk overlapping_generations).
  vm_compute. reflexivity.
Defined.

Lemma page_life_cycle_witness :
  exists sys : Sys,
    steps [Settle 0 Examples.offline] (mount Examples.clk) = Some sys
    /\ ((ffmpegState (fst (config sys)) = Loading
         /\ ready (config sys) = false /\ controls_disabled (config sys) = true
         /\ videoUrl (fst (config sys)) = None
         /\ calls (trace sys) = [FFmpeg_load load_config])
        \/ (ffmpegState (fst (config sys))
            = Error "Failed to load FFmpeg. Please refresh and try again."
            /\ ready (config sys) = false /\ controls_disabled (config sys) = true
            /\ videoUrl (fst (config sys)) = None
            /\ calls (trace sys) = [FFmpeg_load load_config]
            /\ tasks sys = [])
        \/ (ffmpegState (fst (config sys)) = Idle /\ ready (config sys) = true)).
Proof.
  eexists. split; [vm_compute; reflexivity|].
  apply (page_life_cycle Examples.clk [Settle 0 Examples.offline]).
  vm_compute. reflexivity.
Defined.

Lemma failed_load_is_final_witness :
  exists sys sys' : Sys,
    steps [Settle 0 Examples.offline] (mount Examples.clk) = Some sys
    /\ steps [UI (DropFiles (Some [Examples.png])); UI (ChangeFile None)] sys
       = Some sys'
    /\ controls_disabled (config sys') = true
    /\ calls (trace sys') = [FFmpeg_load load_config].
Proof.
  eexists _, _. split; [vm_compute; reflexivity|].
  split; [vm_compute; reflexivity|].
  pose proof (failed_load_is_final Examples.clk [Settle 0 Examples.offline]
    [UI (DropFiles (Some [Examples.png])); UI (ChangeFile None)] _ _
    "Failed to load FFmpeg. Please refresh and try again."
    ltac:(vm_compute; reflexivity) ltac:(vm_compute; reflexivity)
    ltac:(vm_compute; reflexivity)) as H.
  exact (conj (proj1 (proj2 H)) (proj2 (proj2 (proj2 (proj2 H))))).
Defined.

Lemma ready_is_stable_witness :
  exists sys sys' : Sys,
    steps [Settle 0 Examples.all_fine] (mount Examples.clk) = Some sys
    /\ steps ([UI (DropFiles (Some [Examples.png])); UI ClickGenerate]
              ++ replicate 3 (Settle 0 Examples.exec_fails)) sys = Some sys'
    /\ state (fst (config sys'))
       = Error "Something went wrong while generating the video. Please try again."
    /\ ready (config sys') = true.
Proof.
  eexists _, _. split; [vm_compute; reflexivity|].
  split; [vm_compute; reflexivity|]. split; [reflexivity|].
  eapply (ready_is_stable Examples.clk [Settle 0 Examples.all_fine]
            ([UI (DropFiles (Some [Examples.png])); UI ClickGenerate]
             ++ replicate 3 (Settle 0 Examples.exec_fails)));
    vm_compute; reflexivity.
Defined.

Lemma status_line_witness :
  exists sys : Sys,
    steps [Settle 0 Examples.offline; UI (DropFiles (Some [Examples.pdf]))]
      (mount Examples.clk) = Some sys
    /\ statusMessage (config sys) = "Unsupported file. Please select an image."
    /\ statusMessage (config sys)
       <> "Failed to load FFmpeg. Please refresh and try again.".
Proof.
  eexists. split; [vm_compute; reflexivity|]. split; [reflexivity|].
  refine (proj2 (status_line Examples.clk
    [Settle 0 Examples.offline; UI (DropFiles (Some [Examples.pdf]))] _ _)).
  vm_compute. reflexivity.
Defined.

Lemma logged_errors_come_from_the_library_witness :
  exists (hist : list Event) (call : Call),
    ECall call ∈ (run (Examples.always Examples.exec_fails)
                    (generateVideo Examples.with_png)
                    (Examples.with_png, Examples.loaded_world) []).2
    /\ Examples.always Examples.exec_fails hist call = Rejected "Aborted".
Proof.
  apply (logged_errors_come_from_the_library
           (Examples.always Examples.exec_fails) Examples.with_png
           (Examples.with_png, Examples.loaded_world) "Aborted").
  in_list.
Defined.

(** Runs one step of a concrete page and keeps the equation. *)
Ltac run_step H :=
  lazymatch goal with
  | |- ?P /\ _ => assert (H : P) by (vm_compute; reflexivity); split; [exact H|]
  end.

Lemma empty_selection_clears_image_witness :
  exists s s' : Sys,
    steps [Settle 0 Examples.all_fine; UI (DropFiles (Some [Examples.png]))]
      (mount Examples.clk) = Some s
    /\ imagePreview (fst (config s)) = Some 0%nat
    /\ step (UI (DropFiles (Some []))) s = Some s'
    /\ imageFile (fst (config s')) = None
    /\ imagePreview (fst (config s')) = None
    /\ blobs (snd (config s')) !! 0%nat = None.
Proof.
  eexists _, _. split; [vm_compute; reflexivity|]. split; [reflexivity|].
  run_step Hs.
  pose proof (empty_selection_clears_image (DropFiles (Some [])) (Some []) _ _
    (or_intror eq_refl) eq_refl Hs) as H.
  exact (conj (proj1 H) (conj (proj1 (proj2 H))
           (proj1 (proj2 (proj2 H)) 0%nat eq_refl))).
Defined.

Lemma accepted_image_is_selected_witness :
  exists s s' : Sys,
    steps (overlapping_generations ++ [Settle 0 Examples.all_fine])
      (mount Examples.clk) = Some s
    /\ step (UI (ChangeFile (Some [Examples.png; Examples.pdf]))) s = Some s'
    /\ imageFile (fst (config s')) = Some Examples.png
    /\ preview (fst (config s')) = video_src 3%nat.
Proof.
  eexists _, _. split; [vm_compute; reflexivity|]. run_step Hs.
  pose proof (accepted_image_is_selected
    (ChangeFile (Some [Examples.png; Examples.pdf])) Examples.png [Examples.pdf]
    _ _ (or_introl eq_refl) eq_refl Hs) as H.
  cbn zeta in H.
  exact (conj (proj1 H) (proj1 (proj2 (proj2 (proj2 (proj2 (proj2 (proj2 H)))))))).
Defined.

Lemma selection_ends_processing_status_witness :
  exists s s' : Sys,
    steps [Settle 0 Examples.all_fine; UI (DropFiles (Some [Examples.png]));
           UI ClickGenerate] (mount Examples.clk) = Some s
    /\ isProcessing (fst (config s)) = true
    /\ enabled ClickGenerate (config s) = false
    /\ step (UI (DropFiles (Some [Examples.pdf]))) s = Some s'
    /\ isProcessing (fst (config s')) = false
    /\ enabled ClickGenerate (config s') = true
    /\ length (tasks s') = 1%nat.
Proof.
  eexists _, _. split; [vm_compute; reflexivity|]. split; [reflexivity|].
  split; [reflexivity|]. run_step Hs.
  pose proof (selection_ends_processing_status
    (DropFiles (Some [Examples.pdf])) Examples.pdf [] _ _
    (or_intror eq_refl) Hs) as H.
  split; [exact (proj1 H)|]. split; [exact (proj1 (proj2 (proj2 H)))|].
  rewrite (proj2 (proj2 (proj2 H))). reflexivity.
Defined.

Lemma generate_click_witness :
  exists s s' : Sys,
    steps [Settle 0 Examples.all_fine; UI (DropFiles (Some [Examples.png]))]
      (mount Examples.clk) = Some s
    /\ step (UI ClickGenerate) s = Some s'
    /\ state (fst (config s')) = Processing
    /\ calls (trace s') = calls (trace s) ++ [fetchFile Examples.png].
Proof.
  eexists _, _. split; [vm_compute; reflexivity|]. run_step Hs.
  pose proof (fun Hf => generate_click _ _ Examples.png Hf Hs) as H.
  specialize (H eq_refl).
  exact (conj (proj1 H)
           (proj2 (proj2 (proj2 (proj2 (proj2 (proj2 (proj2 H)))))))).
Defined.

Lemma clear_video_witness :
  exists s s' : Sys,
    steps (overlapping_generations ++ [Settle 0 Examples.all_fine])
      (mount Examples.clk) = Some s
    /\ step (UI ClickClear) s = Some s'
    /\ videoUrl (fst (config s)) = Some 3%nat
    /\ videoUrl (fst (config s')) = None
    /\ blobs (snd (config s')) !! 3%nat = None
    /\ download_link (fst (config s')) = None.
Proof.
  eexists _, _. split; [vm_compute; reflexivity|]. run_step Hs.
  destruct (clear_video _ _ Hs) as (u & Hu & Hv & Hb & _ & _ & Hd & _).
  split; [reflexivity|]. split; [exact Hv|]. split; [|exact Hd].
  injection Hu as <-. exact Hb.
Defined.

(** ** The URLs that the page shows *)

Lemma pending_video_finished (p : Prog unit) :
  suspended p = false -> pending_video p.
Proof.
  intros Hp. constructor; intros answer c tr p' c' tr' H;
    destruct p; discriminate.
Qed.

Lemma video_effect_spares (c c' : Config) :
  shown_live c -> video_effect c c' -> cleanups_spare (fst c) c'.
Proof.
  intros (Hp & Hv & Hb) (Hf' & Hp' & Heff).
  destruct Heff as [(Eb & En & Ev)|(b & Hty & Eb & En & Ev)].
  - split; [|split].
    + unfold shown_live. rewrite Hf', Hp', Eb, En, Ev. auto.
    + intros u Hu. rewrite Ev. intros Hvu.
      rewrite Hu in Hp. destruct Hp as (f & _ & Hl).
      destruct (Hv u Hvu) as (b & Hl' & _). congruence.
    + intros u Hu. rewrite Hp'. intros Hpu.
      rewrite Hpu in Hp. destruct Hp as (f & _ & Hl).
      destruct (Hv u Hu) as (b & Hl' & _). congruence.
  - split; [|split].
    + unfold shown_live. rewrite Hf', Hp', Eb, En, Ev. split; [|split].
      * destruct (imagePreview (fst c)) as [u|]; [|exact Hp].
        destruct Hp as (f & Hf & Hl). exists f. split; [exact Hf|].
        rewrite lookup_insert_ne; [exact Hl|].
        assert (u < next_url (snd c))%nat by (apply Hb; rewrite Hl; eauto). lia.
      * intros u [= <-]. exists b. rewrite lookup_insert_eq. auto.
      * intros u. destruct (decide (next_url (snd c) = u)) as [<-|Hne]; [lia|].
        rewrite lookup_insert_ne by exact Hne. intros Hu.
        specialize (Hb u Hu). lia.
    + intros u Hu. rewrite Ev. intros [= <-].
      rewrite Hu in Hp. destruct Hp as (f & _ & Hl).
      assert (next_url (snd c) < next_url (snd c))%nat
        by (apply Hb; rewrite Hl; eauto). lia.
    + intros u Hu. rewrite Hp'. intros Hpu.
      rewrite Hpu in Hp. destruct Hp as (f & _ & Hl).
      destruct (Hv u Hu) as (b' & Hl' & _). congruence.
Qed.

Lemma commit_shown (prev : Store) (s : Sys) :
  cleanups_spare prev (config s) -> shown_live (config (commit prev s)).
Proof.
  intros ((Hp & Hv & Hb) & Hpv & Hvp).
  unfold commit, cleanup_imagePreview, cleanup_videoUrl, op.
  destruct (config s) as [cur w] eqn:Hc. cbn in *.
  destruct (decide (imagePreview prev = imagePreview cur)) as [Ep|Ep];
    destruct (decide (videoUrl prev = videoUrl cur)) as [Ev|Ev];
    destruct (imagePreview prev) as [up|] eqn:Hup;
    destruct (videoUrl prev) as [uv|] eqn:Huv; cbn.
  all: unfold shown_live; cbn; split; [|split].
  all: try (intros u Hu; destruct (Hv u Hu) as (b & Hl & Hty); exists b;
            split; [|exact Hty];
            rewrite ?lookup_delete_ne; [exact Hl|..]; intros ->;
            first [ exact (Hpv _ eq_refl Hu) | congruence ]).
  all: try (intros u Hu; apply Hb;
            repeat (apply lookup_delete_is_Some in Hu; destruct Hu as [_ Hu]);
            exact Hu).
  all: destruct (imagePreview cur) as [u|] eqn:Hu; try exact Hp.
  all: destruct Hp as (f & Hf & Hl); exists f; (split; [exact Hf|]).
  all: rewrite ?lookup_delete_ne; [exact Hl|..]; intros ->;
       first [ exact (Hvp _ eq_refl eq_refl) | congruence ].
Qed.

(** The effect of a synchronous stretch read off its result. *)
Ltac video_effects :=
  lazymatch goal with
  | |- video_effect _ _ =>
      split; [reflexivity|]; split; [reflexivity|];
      first [ left; split; [reflexivity|split; reflexivity]
            | right; eexists; split;
              [|split; [reflexivity|split; reflexivity]]; reflexivity ]
  end.

(** Follow a suspended handler through all its calls. *)
Ltac pending_videos :=
  repeat first [ apply pending_video_finished; reflexivity
               | video_effects | settle ].

Lemma shown_sources_differ (c : Config) (u : URL) :
  shown_live c -> imagePreview (fst c) = Some u -> videoUrl (fst c) <> Some u.
Proof.
  intros (Hp & Hv & _) Hu Hvu. rewrite Hu in Hp. destruct Hp as (f & _ & Hl).
  destruct (Hv u Hvu) as (b & Hl' & _). congruence.
Qed.

(** A URL below the next one is not the next one. *)
Ltac below_next Hb :=
  let E := fresh in
  intros E;
  lazymatch goal with
  | Hl : _ !! ?u = Some _ |- _ =>
      let Hlt := fresh in
      assert (Hlt : (u < _)%nat) by (apply Hb; rewrite Hl; eauto);
      rewrite E in Hlt; lia
  end.

(** Lookups through the revocations and creations of a handler. *)
Ltac through_urls Hb Hne :=
  repeat first
    [ rewrite lookup_insert_eq
    | rewrite lookup_delete_ne
        by (let E := fresh in
            intros E; first [ exact (Hne _ eq_refl (f_equal Some E))
                            | exact (Hne _ eq_refl (f_equal Some (eq_sym E)))
                            | congruence ])
    | rewrite lookup_insert_ne by below_next Hb ].

(** What a handler leaves of [shown_live], given it for the render [r]. *)
Ltac still_shown r Hv Hb Hne :=
  unfold cleanups_spare, shown_live; cbn;
  try match goal with E : videoUrl r = _ |- _ => rewrite !E end;
  try match goal with E : imagePreview r = _ |- _ => rewrite !E end;
  try match goal with E : imageFile r = _ |- _ => rewrite !E end;
  ((split; [split; [|split]|split]);
  [ try (eexists; split; [eassumption || reflexivity|]);
    through_urls Hb Hne; try assumption; try congruence
  | let u := fresh "u" in let Hu := fresh "Hu" in
    intros u Hu; try discriminate Hu;
    try (destruct (Hv u Hu) as (?b & ?Hlb & ?Hty); eexists;
         split; [|eassumption]; through_urls Hb Hne; try assumption)
  | let u := fresh "u" in let Hu := fresh "Hu" in
    intros u Hu;
    repeat first
      [ apply lookup_delete_is_Some in Hu; destruct Hu as [_ Hu]
      | apply lookup_insert_is_Some in Hu; destruct Hu as [<- | [_ Hu]]; [lia|] ];
    try (specialize (Hb u Hu); lia)
  | let u := fresh "u" in let Hu := fresh "Hu" in
    intros u Hu; try discriminate; try (apply Hne; congruence)
  | let u := fresh "u" in let Hu := fresh "Hu" in
    let Hpu := fresh "Hpu" in
    intros u Hu Hpu; try discriminate;
    first [ refine (Hne _ eq_refl _); congruence
          | destruct (Hv u Hu) as (?b & ?Hlb & _);
            injection Hpu as Hpu; revert Hpu; below_next Hb
          | idtac ] ]).

(** The cases of a render for which [shown_live] holds. *)
Ltac shown_cases r w Hc Hv Hb Hne :=
  pose proof (fun u => shown_sources_differ (r, w) u Hc) as Hne;
  destruct Hc as (Hc & Hv & Hb); destruct w as [?ref ?bl ?nx ?clk ?rd];
  cbn in Hc, Hv, Hb, Hne;
  destruct (imageFile r) as [?f|] eqn:?Hf;
  destruct (imagePreview r) as [?up|] eqn:?Hup;
  [ destruct Hc as (?f0 & ?Hf0 & ?Hl) | discriminate Hc
  | destruct Hc as (?f0 & ?Hf0 & ?Hl) | ];
  try discriminate;
  destruct (videoUrl r) as [?uv|] eqn:?Huv.

Lemma generateVideo_shown (r : Store) (w : World) (tr : list Event) :
  shown_live (r, w) ->
  cleanups_spare r (advance (generateVideo r) (r, w) tr).1.2
  /\ pending_video (advance (generateVideo r) (r, w) tr).1.1.
Proof.
  intros Hc. unfold generateVideo, resetVideo, load, await, op.
  shown_cases r w Hc Hv Hb Hne; destruct ref as [[[|]]|]; cbn.
  all: split; [|pending_videos].
  all: still_shown r Hv Hb Hne.
Qed.

Lemma handleImageSelection_shown (r : Store) (w : World) (tr : list Event)
    (file : option File) :
  shown_live (r, w) ->
  cleanups_spare r (advance (handleImageSelection r file) (r, w) tr).1.2
  /\ pending_video (advance (handleImageSelection r file) (r, w) tr).1.1.
Proof.
  intros Hc. unfold handleImageSelection, op.
  shown_cases r w Hc Hv Hb Hne;
    (destruct file as [f'|]; cbn;
     [destruct (startsWith (file_type f') "image/"); cbn|]).
  all: split; [|pending_videos].
  all: still_shown r Hv Hb Hne.
Qed.

Lemma handler_shown (ev : UIEvent) (c : Config) (tr : list Event) :
  shown_live c ->
  cleanups_spare (fst c) (advance (handler ev (fst c)) c tr).1.2
  /\ pending_video (advance (handler ev (fst c)) c tr).1.1.
Proof.
  intros Hc. destruct c as [r w]. destruct ev as [files|files|v|v| |]; cbn.
  - apply handleImageSelection_shown, Hc.
  - apply handleImageSelection_shown, Hc.
  - shown_cases r w Hc Hv Hb Hne; cbn; (split; [|pending_videos]);
      still_shown r Hv Hb Hne.
  - shown_cases r w Hc Hv Hb Hne; cbn; (split; [|pending_videos]);
      still_shown r Hv Hb Hne.
  - apply generateVideo_shown, Hc.
  - unfold onClick_clear, resetVideo, op.
    shown_cases r w Hc Hv Hb Hne; cbn; (split; [|pending_videos]);
      still_shown r Hv Hb Hne.
Qed.

Lemma handle_shown (l : Label) (s s' : Sys) :
  shown_inv s -> handle l s = Some s' ->
  cleanups_spare (fst (config s)) (config s') /\ Forall pending_video (tasks s').
Proof.
  intros [Hc Hts]. destruct l as [ev|i answer]; cbn.
  - destruct (enabled ev (config s)); [|discriminate].
    destruct (handler_shown ev (config s) (trace s) Hc) as [Hst Hp].
    destruct (advance _ _ _) as [[p c] tr]. intros [= <-]. cbn in *.
    split; [exact Hst|]. destruct (suspended p); [|exact Hts].
    apply Forall_app. split; [exact Hts | apply Forall_singleton; exact Hp].
  - destruct (tasks s !! i) as [task|] eqn:Hi; [|discriminate]. cbn.
    destruct (resume task answer (config s) (trace s)) as [[[p c] tr]|] eqn:Hr;
      [|discriminate]. cbn. intros [= <-]. cbn.
    destruct (Forall_lookup_1 _ _ _ _ Hts Hi) as [task Heff Hnext].
    split.
    + apply video_effect_spares; [exact Hc | exact (Heff _ _ _ _ _ _ Hr)].
    + pose proof (Hnext _ _ _ _ _ _ Hr) as Hp. destruct (suspended p).
      * apply Forall_insert; assumption.
      * apply Forall_delete. exact Hts.
Qed.

Lemma step_shown (l : Label) (s s' : Sys) :
  shown_inv s -> step l s = Some s' -> shown_inv s'.
Proof.
  intros Hs. unfold step. destruct (handle l s) as [s1|] eqn:Hl; [|discriminate].
  cbn. intros [= <-]. destruct (handle_shown l s s1 Hs Hl) as [Hst Hts].
  split; [apply commit_shown, Hst|].
  unfold commit. destruct (advance _ _ _) as [[p c] tr]. exact Hts.
Qed.

Lemma mount_shown (clk : nat -> Z) : shown_inv (mount clk).
Proof.
  split.
  - split; [reflexivity|]. split; [discriminate|].
    intros u [src Hu].
    change (blobs (snd (config (mount clk)))) with (∅ : gmap URL UrlSource) in Hu.
    rewrite lookup_empty in Hu. discriminate.
  - cbn. apply Forall_singleton. pending_videos.
Qed.

Lemma steps_shown (ls : list Label) (s s' : Sys) :
  shown_inv s -> steps ls s = Some s' -> shown_inv s'.
Proof.
  revert s. induction ls as [|l ls IH]; intros s Hs; cbn.
  - intros [= <-]. exact Hs.
  - destruct (step l s) as [s1|] eqn:Hl; [|discriminate]. cbn.
    apply IH. exact (step_shown l s s1 Hs Hl).
Qed.

(** X15. What the page shows is live. At every render, the image and its
    preview are set or unset together; when set, the preview URL is a live
    object URL of the selected file; and a video URL, which the player and
    the download link use, is a live object URL of a blob of type
    [video/mp4]. No handler and no effect cleanup revokes a URL that the
    page goes on showing. *)
Theorem shown_urls_are_live (clk : nat -> Z) (ls : list Label) (sys : Sys) :
  steps ls (mount clk) = Some sys ->
  let page := fst (config sys) in
  let live := blobs (snd (config sys)) in
  match imageFile page, imagePreview page with
  | Some f, Some u => live !! u = Some (FromFile f)
  | None, None => True
  | _, _ => False
  end
  /\ (forall u : URL, videoUrl page = Some u ->
        preview page = video_src u
        /\ download_link page = Some (u, "image-video.mp4")
        /\ exists b : Blob,
             live !! u = Some (FromBlob b) /\ blob_type b = "video/mp4").
Proof.
  intros Hsteps page live. subst page live.
  destruct (steps_shown ls _ sys (mount_shown clk) Hsteps) as [(Hp & Hv & _) _].
  split.
  - destruct (imagePreview (fst (config sys))) as [u|].
    + destruct Hp as (f & -> & Hl). exact Hl.
    + rewrite Hp. exact Logic.I.
  - intros u Hu. unfold preview, download_link. rewrite Hu.
    split; [reflexivity|]. split; [reflexivity|]. exact (Hv u Hu).
Qed.

Lemma shown_urls_are_live_witness :
  exists sys : Sys,
    steps (overlapping_generations ++ [Settle 0 Examples.all_fine])
      (mount Examples.clk) = Some sys
    /\ imagePreview (fst (config sys)) = Some 1%nat
    /\ blobs (snd (config sys)) !! 1%nat = Some (FromFile Examples.jpg)
    /\ videoUrl (fst (config sys)) = Some 3%nat
    /\ exists b : Blob,
         blobs (snd (config sys)) !! 3%nat = Some (FromBlob b)
         /\ blob_type b = "video/mp4".
Proof.
  eexists. split; [vm_compute; reflexivity|].
  lazymatch goal with
  | |- imagePreview (fst (config ?s)) = _ /\ _ =>
      pose proof (shown_urls_are_live Examples.clk
        (overlapping_generations ++ [Settle 0 Examples.all_fine]) s
        ltac:(vm_compute; reflexivity)) as H
  end.
  cbn zeta in H. destruct H as [Hp Hv].
  split; [reflexivity|]. split; [exact Hp|]. split; [reflexivity|].
  exact (proj2 (proj2 (Hv 3%nat eq_refl))).
Defined.

(** ** Overlapping generations *)

Lemma video_effect_leaked (u : URL) (src : UrlSource) (c c' : Config) :
  leaked u src c -> video_effect c c' -> leaked u src c'.
Proof.
  intros (Hl & Hp & Hv & Hb) (_ & Hp' & Heff). unfold leaked. rewrite Hp'.
  destruct Heff as [(Eb & En & Ev)|(b & _ & Eb & En & Ev)]; rewrite Eb, En, Ev.
  - auto.
  - rewrite lookup_insert_ne by lia. repeat split; auto.
    intros [= E]. lia.
Qed.

Lemma commit_leaked (u : URL) (src : UrlSource) (prev : Store) (s : Sys) :
  imagePreview prev <> Some u -> videoUrl prev <> Some u ->
  leaked u src (config s) -> leaked u src (config (commit prev s)).
Proof.
  intros Hpp Hpv (Hl & Hp & Hv & Hb).
  unfold commit, cleanup_imagePreview, cleanup_videoUrl, op.
  destruct (config s) as [cur w]. cbn in *.
  destruct (decide (imagePreview prev = imagePreview cur));
    destruct (decide (videoUrl prev = videoUrl cur));
    destruct (imagePreview prev) as [up|];
    destruct (videoUrl prev) as [uv|]; cbn.
  all: unfold leaked; cbn; repeat split; try assumption.
  all: rewrite ?lookup_delete_ne by congruence; assumption.
Qed.

(** What a handler leaves of a leak, given it for the render [r]. *)
Ltac still_leaked r :=
  unfold leaked; cbn;
  try match goal with E : videoUrl r = _ |- _ => rewrite !E end;
  try match goal with E : imagePreview r = _ |- _ => rewrite !E end;
  repeat split;
  try first [ assumption | discriminate | lia
            | intros [= <-]; lia
            | rewrite ?lookup_insert_ne by lia;
              rewrite ?lookup_delete_ne by congruence; assumption ].

Lemma handler_leaked (u : URL) (src : UrlSource) (ev : UIEvent) (c : Config)
    (tr : list Event) :
  leaked u src c ->
  leaked u src (advance (handler ev (fst c)) c tr).1.2
  /\ pending_video (advance (handler ev (fst c)) c tr).1.1.
Proof.
  intros (Hl & Hp & Hv & Hb). destruct c as [r [ref bl nx clk rd]]. cbn in *.
  destruct ev as [files|files|v|v| |]; cbn;
    unfold handleFileChange, handleDrop, handleImageSelection, generateVideo,
      onClick_clear, resetVideo, load, await, op.
  1, 2: destruct (first_file files) as [f|]; cbn;
        [destruct (startsWith (file_type f) "image/"); cbn|].
  all: destruct (imageFile r) as [f0|] eqn:Hf;
       destruct (imagePreview r) as [up|] eqn:Hup;
       destruct (videoUrl r) as [uv|] eqn:Huv;
       destruct ref as [[[|]]|]; cbn.
  all: split; [still_leaked r | pending_videos].
Qed.

Lemma handle_leaked (u : URL) (src : UrlSource) (l : Label) (s s' : Sys) :
  leaked_inv u src s -> handle l s = Some s' -> leaked_inv u src s'.
Proof.
  intros [Hc Hts] Hl. destruct l as [ev|i answer]; cbn in Hl.
  - destruct (enabled ev (config s)); [|discriminate].
    destruct (handler_leaked u src ev (config s) (trace s) Hc) as [Hst Hp].
    destruct (advance _ _ _) as [[p c] tr]. injection Hl as <-. cbn in *.
    split; [exact Hst|]. destruct (suspended p); [|exact Hts].
    apply Forall_app. split; [exact Hts | apply Forall_singleton; exact Hp].
  - destruct (tasks s !! i) as [task|] eqn:Hi; [|discriminate]. cbn in Hl.
    destruct (resume task answer (config s) (trace s)) as [[[p c] tr]|] eqn:Hr;
      [|discriminate]. cbn in Hl. injection Hl as <-.
    destruct (Forall_lookup_1 _ _ _ _ Hts Hi) as [task Heff Hnext].
    split.
    + exact (video_effect_leaked u src _ _ Hc (Heff _ _ _ _ _ _ Hr)).
    + pose proof (Hnext _ _ _ _ _ _ Hr) as Hp. cbn. destruct (suspended p).
      * apply Forall_insert; assumption.
      * apply Forall_delete. exact Hts.
Qed.

Lemma handles_leaked (u : URL) (src : UrlSource) (ls : list Label) (s s' : Sys) :
  leaked_inv u src s -> handles ls s = Some s' -> leaked_inv u src s'.
Proof.
  revert s. induction ls as [|l ls IH]; intros s Hs; cbn.
  - intros [= <-]. exact Hs.
  - destruct (handle l s) as [s1|] eqn:Hl; [|discriminate]. cbn.
    apply IH. exact (handle_leaked u src l s s1 Hs Hl).
Qed.

(** A leak outlives every render, however many settled calls share it. *)
Lemma batch_leaked (u : URL) (src : UrlSource) (ls : list Label) (s s' : Sys) :
  leaked_inv u src s -> batch ls s = Some s' -> leaked_inv u src s'.
Proof.
  intros Hs. unfold batch.
  destruct (handles ls s) as [s1|] eqn:Hl; [|discriminate]. cbn. intros [= <-].
  destruct (handles_leaked u src ls s s1 Hs Hl) as [H1 H2].
  destruct Hs as [(_ & Hp & Hv & _) _]. split.
  - apply commit_leaked; assumption.
  - unfold commit. destruct (advance _ _ _) as [[p c] tr]. exact H2.
Qed.

Lemma batches_leaked (u : URL) (src : UrlSource) (bs : list (list Label))
    (s s' : Sys) :
  leaked_inv u src s -> batches bs s = Some s' -> leaked_inv u src s'.
Proof.
  revert s. induction bs as [|ls bs IH]; intros s Hs; cbn.
  - intros [= <-]. exact Hs.
  - destruct (batch ls s) as [s1|] eqn:Hl; [|discriminate]. cbn.
    apply IH. exact (batch_leaked u src ls s s1 Hs Hl).
Qed.

Lemma step_is_batch (l : Label) (s : Sys) : step l s = batch [l] s.
Proof.
  unfold step, batch. cbn. destruct (handle l s); reflexivity.
Qed.

(** C6. Object URLs are not always revoked before the next one of their
    slot is installed. A file selected while a generation is pending sets
    the status back to idle, the button is enabled again and a second
    generation can start. When the first run has installed its video URL (2)
    and the last call of the second run settles, the second run creates and
    installs its own URL (3) while URL 2 is still live; URL 2 is revoked
    only by the effect cleanup at the following render. When the last calls
    of both runs settle before one render, the cleanup is closed over a
    render without a video and revokes nothing: URL 3 is shown, URL 2 is
    held by nothing, and nothing the page does later revokes it, however
    its renders fall. *)
Theorem overlapping_generations_leave_video_urls_live :
  (exists (before during after : Sys) (video : Blob),
      steps overlapping_generations (mount Examples.clk) = Some before
      /\ videoUrl (fst (config before)) = Some 2%nat
      /\ blobs (snd (config before)) !! 2%nat = Some (FromBlob video)
      /\ handle (Settle 0 Examples.all_fine) before = Some during
      /\ drop (length (trace before)) (trace during) =
           [ EOp (createObjectURL (FromBlob video));
             EOp (setVideoUrl (Some 3%nat));
             EOp (setState Idle) ]
      /\ blobs (snd (config during)) !! 2%nat = Some (FromBlob video)
      /\ blobs (snd (config during)) !! 3%nat = Some (FromBlob video)
      /\ step (Settle 0 Examples.all_fine) before = Some after
      /\ blobs (snd (config after)) !! 2%nat = None)
  /\ (exists (before after : Sys) (video : Blob),
        steps both_at_last_call (mount Examples.clk) = Some before
        /\ videoUrl (fst (config before)) = None
        /\ length (tasks before) = 2%nat
        /\ batch [Settle 0 Examples.all_fine; Settle 0 Examples.all_fine] before
           = Some after
        /\ drop (length (trace before)) (trace after) =
             [ EOp (createObjectURL (FromBlob video));
               EOp (setVideoUrl (Some 2%nat));
               EOp (setState Idle);
               EOp (createObjectURL (FromBlob video));
               EOp (setVideoUrl (Some 3%nat));
               EOp (setState Idle) ]
        /\ videoUrl (fst (config after)) = Some 3%nat
        /\ tasks after = []
        /\ blobs (snd (config after)) !! 3%nat = Some (FromBlob video)
        /\ forall (bs : list (list Label)) (later : Sys),
             batches bs after = Some later ->
             blobs (snd (config later)) !! 2%nat = Some (FromBlob video)).
Proof.
  split.
  - eexists _, _, _, _.
    split; [vm_compute; reflexivity|]. split; [reflexivity|].
    split; [vm_compute; reflexivity|]. split; [vm_compute; reflexivity|].
    split; [vm_compute; reflexivity|]. split; [vm_compute; reflexivity|].
    split; [vm_compute; reflexivity|]. split; [vm_compute; reflexivity|].
    vm_compute. reflexivity.
  - eexists _, _, _.
    split; [vm_compute; reflexivity|]. split; [reflexivity|].
    split; [reflexivity|]. split; [vm_compute; reflexivity|].
    split; [vm_compute; reflexivity|]. split; [reflexivity|].
    split; [reflexivity|]. split; [vm_compute; reflexivity|].
    intros bs later Hlater.
    refine (proj1 (proj1 (batches_leaked 2%nat _ bs _ later _ Hlater))).
    split.
    + split; [vm_compute; reflexivity|]. split; [discriminate|].
      split; [discriminate|]. vm_compute. lia.
    + apply Forall_nil. exact Logic.I.
Qed.
